(** * Orchestration layer of the hedge-fund runner ([src/main.py])

    A shallow embedding of [main.py]: the workflow builder
    [create_workflow], the runner [run_hedge_fund] with
    [parse_hedge_fund_response], and the command-line script (configuration
    loading, date defaulting, per-ticker loop).

    Python values are embedded as Rocq data, raised exceptions as the
    [Raise] case of [result], and printing as an event log. *)

From Stdlib Require Import ZArith QArith Lia Ascii.
From stdpp Require Import gmap strings list pretty.

Local Open Scope string_scope.
Set Warnings "-clear-no-such-hyp,-register-all".
Set Default Proof Using "Type".

(** ** Exceptions and fallible computations *)

(** The exceptions the script can meet. All are instances of Python's
    [Exception]; process-control signals deriving directly from
    [BaseException] (keyboard interrupt, interpreter exit) are outside the
    model. [OtherError cls msg] stands for any other [Exception] subclass
    raised by an external collaborator. *)
Inductive exception : Type :=
| KeyError (key : string)
| ValueError (msg : string)
| NameError (name : string)
| AttributeError (msg : string)
| IndexError (msg : string)
| OtherError (cls msg : string).

Definition exc_class (e : exception) : string :=
  match e with
  | KeyError _ => "KeyError"
  | ValueError _ => "ValueError"
  | NameError _ => "NameError"
  | AttributeError _ => "AttributeError"
  | IndexError _ => "IndexError"
  | OtherError cls _ => cls
  end.

Inductive result (A : Type) : Type :=
| Ok (a : A)
| Raise (e : exception).
Arguments Ok {A} a.
Arguments Raise {A} e.

#[global] Instance result_ret : MRet result := fun A a => Ok a.
#[global] Instance result_bind : MBind result := fun A B f m =>
  match m with
  | Ok a => f a
  | Raise e => Raise e
  end.

Definition is_Ok {A} (r : result A) : Prop := ∃ a, r = Ok a.

(** ** The agents *)

(** The node callables imported by [main.py] (their bodies are external),
    and [start], defined in [main.py] as the identity on the state. *)
Inductive agent : Type :=
| start
| technical_analyst_agent
| fundamentals_agent
| sentiment_agent
| valuation_agent
| risk_management_agent
| portfolio_management_agent.

#[global] Instance agent_eq_dec : EqDecision agent.
Proof. solve_decision. Defined.

(** ** langgraph's graph builder *)

(** [StateGraph] is the builder of the langgraph package, which [main.py]
    imports. The part [create_workflow] relies on: [nodes] is a dictionary
    from node name to callable, [edges] a set of (source, target) pairs;
    [add_node] rejects a name that is already registered and the two
    reserved names; [add_edge] rejects [END] as a source and [START] as a
    target; [set_entry_point key] is [add_edge START key]. The builder's
    other validations (a node named like a state key, separator characters
    in a name) cannot fire on the seven node names of [create_workflow]. *)
Module StateGraph.

Definition START : string := "__start__".
Definition END : string := "__end__".

Record t : Type := mk {
  nodes : gmap string agent;
  edges : gset (string * string)
}.

Definition new : t := mk ∅ ∅.

Definition add_node (node : string) (action : agent) (g : t) : result t :=
  match nodes g !! node with
  | Some _ => Raise (ValueError ("Node `" +:+ node +:+ "` already present."))
  | None =>
      if decide (node = END ∨ node = START)
      then Raise (ValueError ("Node `" +:+ node +:+ "` is reserved."))
      else Ok (mk (<[node := action]> (nodes g)) (edges g))
  end.

Definition add_edge (start_key end_key : string) (g : t) : result t :=
  if decide (start_key = END)
  then Raise (ValueError "END cannot be a start node")
  else if decide (end_key = START)
  then Raise (ValueError "START cannot be an end node")
  else Ok (mk (nodes g) ({[ (start_key, end_key) ]} ∪ edges g)).

Definition set_entry_point (key : string) (g : t) : result t :=
  add_edge START key g.

(** The entry points of a graph: the targets of the edges leaving
    [START]. *)
Definition is_entry_point (g : t) (n : string) : Prop := (START, n) ∈ edges g.

End StateGraph.

(** ** [create_workflow] *)

(** Subscription [d[k]] on a dictionary: [KeyError] on a missing key. *)
Definition dict_getitem {V} (d : gmap string V) (k : string) : result V :=
  match d !! k with
  | Some v => Ok v
  | None => Raise (KeyError k)
  end.

(** The dictionary [analyst_nodes] of [create_workflow]. *)
Definition analyst_nodes : gmap string (string * agent) :=
  <["technical_analyst" := ("technical_analyst_agent", technical_analyst_agent)]>
  (<["fundamentals_analyst" := ("fundamentals_agent", fundamentals_agent)]>
  (<["sentiment_analyst" := ("sentiment_agent", sentiment_agent)]>
  (<["valuation_analyst" := ("valuation_agent", valuation_agent)]> ∅))).

(** The default selection of [create_workflow]. *)
Definition all_analysts : list string :=
  ["technical_analyst"; "fundamentals_analyst"; "sentiment_analyst"; "valuation_analyst"].

(** First loop: [add_node] and the edge from [start_node], per key. *)
Fixpoint add_selected_nodes (selected_analysts : list string) (workflow : StateGraph.t)
  : result StateGraph.t :=
  match selected_analysts with
  | [] => Ok workflow
  | analyst_key :: rest =>
      nf ← dict_getitem analyst_nodes analyst_key;
      workflow ← StateGraph.add_node nf.1 nf.2 workflow;
      workflow ← StateGraph.add_edge "start_node" nf.1 workflow;
      add_selected_nodes rest workflow
  end.

(** Second loop: the edge into [risk_management_agent], per key. *)
Fixpoint connect_selected (selected_analysts : list string) (workflow : StateGraph.t)
  : result StateGraph.t :=
  match selected_analysts with
  | [] => Ok workflow
  | analyst_key :: rest =>
      nf ← dict_getitem analyst_nodes analyst_key;
      workflow ← StateGraph.add_edge nf.1 "risk_management_agent" workflow;
      connect_selected rest workflow
  end.

(** [selected_analysts = None] is Python's [None] (the parameter's
    default). *)
Definition create_workflow (selected_analysts : option (list string))
  : result StateGraph.t :=
  workflow ← StateGraph.add_node "start_node" start StateGraph.new;
  let selected_analysts :=
    match selected_analysts with
    | None => all_analysts
    | Some l => l
    end in
  workflow ← add_selected_nodes selected_analysts workflow;
  workflow ← StateGraph.add_node "risk_management_agent" risk_management_agent workflow;
  workflow ← StateGraph.add_node "portfolio_management_agent" portfolio_management_agent workflow;
  workflow ← connect_selected selected_analysts workflow;
  workflow ← StateGraph.add_edge "risk_management_agent" "portfolio_management_agent" workflow;
  workflow ← StateGraph.add_edge "portfolio_management_agent" StateGraph.END workflow;
  StateGraph.set_entry_point "start_node" workflow.

(** ** Reading a built graph *)

(** A walk along the edges of a graph: consecutive nodes are joined by an
    edge. *)
Fixpoint is_walk (E : gset (string * string)) (p : list string) : Prop :=
  match p with
  | a :: (b :: _) as q => (a, b) ∈ E ∧ is_walk E q
  | _ => True
  end.

(** An execution path of a graph: a walk from [START] to [END]. *)
Definition execution_path (g : StateGraph.t) (p : list string) : Prop :=
  head p = Some StateGraph.START ∧ last p = Some StateGraph.END ∧
  is_walk (StateGraph.edges g) p.

(** [a] precedes [b] on [p]: every occurrence of [b] has an earlier
    occurrence of [a]. *)
Definition precedes (a b : string) (p : list string) : Prop :=
  ∀ i, p !! i = Some b → ∃ j, j < i ∧ p !! j = Some a.

(** [selected S n a]: some key of the selection [S] has the descriptor
    (node name [n], callable [a]) in the registry. *)
Definition selected (S : list string) (n : string) (a : agent) : Prop :=
  ∃ k, k ∈ S ∧ analyst_nodes !! k = Some (n, a).

(** The edges the workflow of a selection [S] is meant to have. *)
Definition workflow_edge (S : list string) (s d : string) : Prop :=
  (s = StateGraph.START ∧ d = "start_node") ∨
  (s = "start_node" ∧ ∃ a, selected S d a) ∨
  (d = "risk_management_agent" ∧ ∃ a, selected S s a) ∨
  (s = "risk_management_agent" ∧ d = "portfolio_management_agent") ∨
  (s = "portfolio_management_agent" ∧ d = StateGraph.END).

(** The nodes the workflow of a selection [S] is meant to have. *)
Definition workflow_node (S : list string) (n : string) (a : agent) : Prop :=
  (n = "start_node" ∧ a = start) ∨
  (n = "risk_management_agent" ∧ a = risk_management_agent) ∨
  (n = "portfolio_management_agent" ∧ a = portfolio_management_agent) ∨
  selected S n a.

(** The stage of a node in the workflow: [START], [start_node], the
    analysts, [risk_management_agent], [portfolio_management_agent],
    [END]. *)
Definition node_rank (n : string) : nat :=
  if decide (n = StateGraph.START) then 0
  else if decide (n = "start_node") then 1
  else if decide (n = "risk_management_agent") then 3
  else if decide (n = "portfolio_management_agent") then 4
  else if decide (n = StateGraph.END) then 5
  else 2.

(** ** Python values, printed output *)

(** The values that cross the script: the loaded YAML document, the
    portfolio dictionaries, the parsed decision and the analysts' signal
    payloads. A dictionary is its list of items in insertion order, with
    keys that are strings and pairwise distinct. *)
Inductive value : Type :=
| VNone
| VBool (b : bool)
| VInt (z : Z)
| VFloat (q : Q)
| VStr (s : string)
| VList (l : list value)
| VDict (d : list (string * value)).

Fixpoint assoc_lookup {V} (k : string) (d : list (string * V)) : option V :=
  match d with
  | [] => None
  | (k', v) :: d' => if decide (k = k') then Some v else assoc_lookup k d'
  end.

(** [d[k] = v]: the value is replaced in place, a new key goes last. *)
Fixpoint assoc_set {V} (k : string) (v : V) (d : list (string * V)) : list (string * V) :=
  match d with
  | [] => [(k, v)]
  | (k', v') :: d' => if decide (k = k') then (k, v) :: d' else (k', v') :: assoc_set k v d'
  end.

Definition type_name (v : value) : string :=
  match v with
  | VNone => "NoneType"
  | VBool _ => "bool"
  | VInt _ => "int"
  | VFloat _ => "float"
  | VStr _ => "str"
  | VList _ => "list"
  | VDict _ => "dict"
  end.

Definition no_attribute (v : value) (attr : string) : exception :=
  AttributeError ("'" +:+ type_name v +:+ "' object has no attribute '" +:+ attr +:+ "'").

(** [v.get(k, default)]: only a dictionary has the method. *)
Definition method_get (v : value) (k : string) (default : value) : result value :=
  match v with
  | VDict d => Ok (from_option id default (assoc_lookup k d))
  | _ => Raise (no_attribute v "get")
  end.

(** [list(v.keys())]. *)
Definition method_keys (v : value) : result (list string) :=
  match v with
  | VDict d => Ok (d.*1)
  | _ => Raise (no_attribute v "keys")
  end.

(** [v[k]] on a value: [KeyError] on a dictionary without the key,
    [TypeError] on a value that is not subscriptable by a string. *)
Definition value_getitem (v : value) (k : string) : result value :=
  match v with
  | VDict d =>
      match assoc_lookup k d with
      | Some x => Ok x
      | None => Raise (KeyError k)
      end
  | _ => Raise (OtherError "TypeError" "object is not subscriptable")
  end.

(** What [run_hedge_fund] returns. *)
Record RunResult : Type := {
  decision : value;
  result_analyst_signals : list (string * value)
}.

(** The lines the script itself prints, and its call of the external
    printer. *)
Inductive event : Type :=
| ErrorParsingResponse (response : string)
| UsingAllAnalysts
| SelectedAnalysts (choices : list string)
| Analyzing (ticker : string)
| TradingOutput (r : RunResult)
| ErrorProcessing (ticker : string) (e : exception).

(** The heading the loop prints for a ticker. *)
Definition is_heading (ev : event) : Prop := ∃ t, ev = Analyzing t.

(** A computation that prints and may raise: the printed events and the
    outcome. *)
Definition io (A : Type) : Type := (list event * result A)%type.

#[global] Instance io_ret : MRet io := fun A a => ([], Ok a).
#[global] Instance io_bind : MBind io := fun A B f m =>
  match m with
  | (l, Ok a) => let '(l', r) := f a in ((l ++ l')%list, r)
  | (l, Raise e) => (l, Raise e)
  end.

Definition print (e : event) : io unit := ([e], Ok tt).
Definition lift {A} (r : result A) : io A := ([], r).

(** [try: body except Exception as e: handler(e)]. *)
Definition try_except {A} (body : io A) (handler : exception → io A) : io A :=
  match body with
  | (l, Ok a) => (l, Ok a)
  | (l, Raise e) => let '(l', r) := handler e in ((l ++ l')%list, r)
  end.

(** ** Dates *)

(** A [datetime] as the script uses it: only the date part is parsed,
    shifted and formatted. *)
Record datetime : Type := { year : Z; month : Z; day : Z }.

Definition isleap (y : Z) : bool :=
  (y mod 4 =? 0)%Z && (negb (y mod 100 =? 0)%Z || (y mod 400 =? 0)%Z).

(** [calendar.monthrange(y, m)[1]], for a month between 1 and 12. *)
Definition days_in_month (y m : Z) : Z :=
  if (m =? 2)%Z then (if isleap y then 29 else 28)%Z
  else if (m =? 4)%Z || (m =? 6)%Z || (m =? 9)%Z || (m =? 11)%Z then 30%Z
  else 31%Z.

Definition valid_date (d : datetime) : Prop :=
  (1 ≤ year d ≤ 9999 ∧ 1 ≤ month d ≤ 12 ∧ 1 ≤ day d ≤ days_in_month (year d) (month d))%Z.

#[global] Instance valid_date_dec d : Decision (valid_date d).
Proof. unfold valid_date. apply _. Defined.

(** [dt.replace(year=y, month=m, day=d)]: [ValueError] outside the range
    of [datetime]. *)
Definition datetime_replace (y m d : Z) : result datetime :=
  let dt := {| year := y; month := m; day := d |} in
  if decide (valid_date dt) then Ok dt
  else Raise (ValueError "date value out of range").

(** dateutil's [relativedelta], with the two fields a [months=] argument
    sets. The constructor folds twelve months or more into years. *)
Record relativedelta : Type := { rd_years : Z; rd_months : Z }.

Definition relativedelta_months (n : Z) : relativedelta :=
  if (Z.abs n >? 11)%Z then
    let s := Z.sgn n in
    {| rd_years := (n * s / 12) * s; rd_months := ((n * s) mod 12) * s |}%Z
  else {| rd_years := 0; rd_months := n |}.

Definition relativedelta_neg (r : relativedelta) : relativedelta :=
  {| rd_years := - rd_years r; rd_months := - rd_months r |}%Z.

(** [dt + r]: months are added with a carry into the year, the day is
    cut to the length of the month reached. *)
Definition datetime_add (dt : datetime) (r : relativedelta) : result datetime :=
  let y := (year dt + rd_years r)%Z in
  let m := (month dt + rd_months r)%Z in
  let '(y, m) :=
    if (rd_months r =? 0)%Z then (y, month dt)
    else if (m >? 12)%Z then (y + 1, m - 12)%Z
    else if (m <? 1)%Z then (y - 1, m + 12)%Z
    else (y, m) in
  let d := Z.min (days_in_month y m) (day dt) in
  datetime_replace y m d.

(** [dt - r] is [dt + (-r)]. *)
Definition datetime_sub (dt : datetime) (r : relativedelta) : result datetime :=
  datetime_add dt (relativedelta_neg r).

(** The spec's words, for comparison: the date three calendar months
    before [e] lies in the month whose count from year 0 is three less,
    on the same day of the month, or on that month's last day when it is
    shorter. *)
Definition three_calendar_months_before (e : datetime) : datetime :=
  let count := (12 * year e + (month e - 1) - 3)%Z in
  let y := (count / 12)%Z in
  let m := (count mod 12 + 1)%Z in
  {| year := y; month := m;
     day := if (day e <=? days_in_month y m)%Z then day e else days_in_month y m |}.

(** ** The state of a run and the external collaborators *)

(** A message of the conversation; the script reads its [content]. *)
Record Message : Type := { content : string }.

Record AgentData : Type := {
  ticker : string;
  portfolio : value;
  start_date : string;
  end_date : string;
  analyst_signals : list (string * value)
}.

Record AgentState : Type := {
  messages : list Message;
  data : AgentData;
  show_reasoning : bool
}.

(** The compiled graph [workflow.compile()] returns. *)
Record CompiledGraph : Type := { builder : StateGraph.t }.

(** What the script calls and does not define: the JSON parser, the
    graph engine, the output printer, the date parser and formatter for
    ["%Y-%m-%d"], and reading the YAML file. Each may raise. *)
Class Collaborators : Type := {
  json_loads : string → result value;
  compile : StateGraph.t → result CompiledGraph;
  invoke : CompiledGraph → AgentState → result AgentState;
  print_trading_output : RunResult → result unit;
  strptime : string → result datetime;
  strftime : datetime → string;
  yaml_safe_load_file : string → result value
}.

(** ** The runner *)

Section runner.

Context {ext : Collaborators}.

(** The bare [except:] catches whatever [json.loads] raises; the function
    prints the error line and returns [None]. *)
Definition parse_hedge_fund_response (response : string) : io value :=
  match json_loads response with
  | Ok v => mret v
  | Raise _ => print (ErrorParsingResponse response) ;; mret VNone
  end.

(** Reading the module-level name [app]: [NameError] while no assignment
    to it has run. *)
Definition read_app (app : option CompiledGraph) : result CompiledGraph :=
  match app with
  | Some a => Ok a
  | None => Raise (NameError "app")
  end.

(** [seq[-1]]. *)
Definition last_item {A} (l : list A) : result A :=
  match last l with
  | Some x => Ok x
  | None => Raise (IndexError "list index out of range")
  end.

(** The state [run_hedge_fund] hands to the graph. *)
Definition initial_state (ticker start_date end_date : string) (portfolio : value)
    (show_reasoning : bool) : AgentState :=
  {| messages := [ {| content := "Make a trading decision based on the provided data." |} ];
     data := {| ticker := ticker; portfolio := portfolio;
                start_date := start_date; end_date := end_date;
                analyst_signals := [] |};
     show_reasoning := show_reasoning |}.

(** The binding of [app] after the module has been imported: the
    module-level assignment is commented out and the only other one is in
    the [__main__] block, which an import does not run. *)
Definition app_on_import : option CompiledGraph := None.

(** The first statement of [run_hedge_fund]: a new workflow when analysts
    are given, the module-level [app] otherwise. *)
Definition get_agent (app : option CompiledGraph) (selected_analysts : option (list string))
  : result CompiledGraph :=
  match selected_analysts with
  | Some sel =>
      workflow ← create_workflow (Some sel);
      compile workflow
  | None => read_app app
  end.

(** [app] is the binding of the module-level name at the time of the
    call ([None]: unbound). *)
Definition run_hedge_fund (app : option CompiledGraph)
    (ticker start_date end_date : string) (portfolio : value)
    (show_reasoning : bool) (selected_analysts : option (list string)) : io RunResult :=
  agent ← lift (get_agent app selected_analysts);
  final_state ← lift (invoke agent
                   (initial_state ticker start_date end_date portfolio show_reasoning));
  last_message ← lift (last_item (messages final_state));
  decision ← parse_hedge_fund_response (content last_message);
  mret {| decision := decision;
          result_analyst_signals := analyst_signals (data final_state) |}.

(** ** The script *)

(** The parsed command line. The parser makes [--tickers] and [--config]
    mutually exclusive and requires one of them. *)
Record Args : Type := {
  args_tickers : option (list string);
  args_config : option string;
  args_start_date : option string;
  args_end_date : option string;
  args_show_reasoning : bool
}.

(** Truth value of an optional string argument: [None] and the empty
    string are false. *)
Definition truthy (s : option string) : bool :=
  match s with
  | None | Some EmptyString => false
  | Some _ => true
  end.

(** Configuration loading (the [if args.config:] statement): the
    positions, the tickers and the base portfolio. *)
Definition load_config (config : value)
  : result (value * list string * list (string * value)) :=
  positions ← method_get config "positions" (VDict []);
  tickers ← method_keys positions;
  pf ← method_get config "portfolio" (VDict []);
  cash ← method_get pf "cash" (VFloat (100000 # 1));
  mret (positions, tickers, [("cash", cash)]).

Definition default_positions (tickers : list string)
  : value * list string * list (string * value) :=
  (VDict (foldl (λ d ticker, assoc_set ticker (VDict [("stock", VInt 0)]) d) [] tickers),
   tickers,
   [("cash", VFloat (100000 # 1))]).

Definition resolve_positions (args : Args)
  : result (value * list string * list (string * value)) :=
  if truthy (args_config args) then
    config ← yaml_safe_load_file (from_option id EmptyString (args_config args));
    load_config config
  else
    match args_tickers args with
    | Some tickers => Ok (default_positions tickers)
    | None => Raise (OtherError "TypeError" "'NoneType' object is not iterable")
    end.

(** The analyst selection after the prompt; [choices] is the prompt's
    answer, [None] when it was cancelled. *)
Definition select_analysts (choices : option (list string)) : io (option (list string)) :=
  match choices with
  | None | Some [] => print UsingAllAnalysts ;; mret None
  | Some l => print (SelectedAnalysts l) ;; mret (Some l)
  end.

(** Validation of a date argument: a [ValueError] of the parser is
    replaced by the script's own. *)
Definition validate_date (arg : option string) (msg : string) : result unit :=
  if truthy arg then
    match strptime (from_option id EmptyString arg) with
    | Ok _ => Ok tt
    | Raise (ValueError _) => Raise (ValueError msg)
    | Raise e => Raise e
    end
  else Ok tt.

(** Setting the start and end dates; [now] is [datetime.now()]. The
    result is (start date, end date). *)
Definition resolve_dates (args : Args) (now : datetime) : result (string * string) :=
  let end_date :=
    if truthy (args_end_date args) then from_option id EmptyString (args_end_date args)
    else strftime now in
  if negb (truthy (args_start_date args)) then
    end_date_obj ← strptime end_date;
    d ← datetime_sub end_date_obj (relativedelta_months 3);
    mret (strftime d, end_date)
  else Ok (from_option id EmptyString (args_start_date args), end_date).

(** The portfolio of one ticker: a copy of the base portfolio (a
    dictionary the script built, given by its items) with the ticker's
    stock. *)
Definition ticker_portfolio (base_portfolio : list (string * value)) (positions : value)
    (ticker : string) : result value :=
  position ← value_getitem positions ticker;
  stock ← method_get position "stock" (VInt 0);
  mret (VDict (assoc_set "stock" stock base_portfolio)).

(** The guarded part of one iteration: the [try] statement. *)
Definition attempt (app : option CompiledGraph) (ticker start_date end_date : string)
    (portfolio : value) (show_reasoning : bool) (selected_analysts : option (list string))
  : io unit :=
  try_except
    (r ← run_hedge_fund app ticker start_date end_date portfolio show_reasoning
           selected_analysts;
     print (TradingOutput r) ;;
     lift (print_trading_output r))
    (λ e, print (ErrorProcessing ticker e)).

(** The loop over the tickers. *)
Fixpoint process_tickers (app : option CompiledGraph)
    (base_portfolio : list (string * value)) (positions : value)
    (start_date end_date : string) (show_reasoning : bool)
    (selected_analysts : option (list string)) (tickers : list string) : io unit :=
  match tickers with
  | [] => mret tt
  | ticker :: rest =>
      print (Analyzing ticker) ;;
      portfolio ← lift (ticker_portfolio base_portfolio positions ticker);
      attempt app ticker start_date end_date portfolio show_reasoning selected_analysts ;;
      process_tickers app base_portfolio positions start_date end_date show_reasoning
        selected_analysts rest
  end.

(** What one iteration prints: the heading, then the output of the
    guarded part. *)
Definition ticker_events (app : option CompiledGraph)
    (base_portfolio : list (string * value)) (positions : value)
    (start_date end_date : string) (show_reasoning : bool)
    (selected_analysts : option (list string)) (ticker : string) : list event :=
  Analyzing ticker ::
  match ticker_portfolio base_portfolio positions ticker with
  | Ok portfolio =>
      (attempt app ticker start_date end_date portfolio show_reasoning selected_analysts).1
  | Raise _ => []
  end.

(** The script run as the main module. *)
Definition main (args : Args) (choices : option (list string)) (now : datetime) : io unit :=
  ptb ← lift (resolve_positions args);
  let '(positions, tickers, base_portfolio) := ptb in
  selected_analysts ← select_analysts choices;
  workflow ← lift (create_workflow selected_analysts);
  app ← lift (compile workflow);
  lift (validate_date (args_start_date args) "Start date must be in YYYY-MM-DD format") ;;
  lift (validate_date (args_end_date args) "End date must be in YYYY-MM-DD format") ;;
  dates ← lift (resolve_dates args now);
  process_tickers (Some app) base_portfolio positions dates.1 dates.2
    (args_show_reasoning args) selected_analysts tickers.

End runner.

(** ** Stand-ins for the collaborators, to run the script on examples *)

Definition pad2 (n : Z) : string :=
  if (n <? 10)%Z then "0" +:+ pretty n else pretty n.

Definition pad4 (n : Z) : string :=
  if (n <? 10)%Z then "000" +:+ pretty n
  else if (n <? 100)%Z then "00" +:+ pretty n
  else if (n <? 1000)%Z then "0" +:+ pretty n
  else pretty n.

(** The date as zero-padded [YYYY-MM-DD]. *)
Definition sample_strftime (d : datetime) : string :=
  pad4 (year d) +:+ "-" +:+ pad2 (month d) +:+ "-" +:+ pad2 (day d).

Definition digit (a : ascii) : option Z :=
  let n := Z.of_nat (nat_of_ascii a) in
  if decide (48 ≤ n ≤ 57)%Z then Some (n - 48)%Z else None.

(** Reads the zero-padded form [YYYY-MM-DD] of a date of the calendar;
    [ValueError] on anything else. *)
Definition sample_strptime (s : string) : result datetime :=
  let bad := Raise (ValueError "time data does not match format '%Y-%m-%d'") in
  match s with
  | String y1 (String y2 (String y3 (String y4 (String "-"%char
      (String m1 (String m2 (String "-"%char (String d1 (String d2 EmptyString))))))))) =>
      match digit y1, digit y2, digit y3, digit y4, digit m1, digit m2, digit d1, digit d2 with
      | Some a, Some b, Some c, Some d, Some e, Some f, Some g, Some h =>
          let dt := {| year := 1000 * a + 100 * b + 10 * c + d;
                       month := 10 * e + f; day := 10 * g + h |}%Z in
          if decide (valid_date dt) then Ok dt else bad
      | _, _, _, _, _, _, _, _ => bad
      end
  | _ => bad
  end.

(** A configuration document with the positions of the spec's example. *)
Definition sample_config : value :=
  VDict [("portfolio", VDict [("cash", VInt 50000)]);
         ("positions", VDict [("AAPL", VDict [("stock", VInt 10)]); ("MSFT", VDict [])])].

(** A graph engine that fails on ticker [MSFT], answers JSON on [AAPL] and
    plain text on any other ticker; a JSON parser that knows the one
    document; a printer that succeeds. *)
Definition sample_collaborators : Collaborators := {|
  json_loads s :=
    if decide (s = "{}") then Ok (VDict [])
    else Raise (ValueError "Expecting value");
  compile g := Ok {| builder := g |};
  invoke agent st :=
    if decide (ticker (data st) = "MSFT") then Raise (OtherError "RuntimeError" "node failed")
    else Ok {| messages := messages st ++
                 [ {| content := if decide (ticker (data st) = "AAPL")
                                 then "{}" else "hold" |} ];
               data := {| ticker := ticker (data st); portfolio := portfolio (data st);
                          start_date := start_date (data st); end_date := end_date (data st);
                          analyst_signals := [("technical_analyst_agent", VStr "bullish")] |};
               show_reasoning := show_reasoning st |};
  print_trading_output r := Ok tt;
  strptime := sample_strptime;
  strftime := sample_strftime;
  yaml_safe_load_file path :=
    if decide (path = "config.yaml") then Ok sample_config
    else Raise (OtherError "FileNotFoundError" path)
|}.

(** The sample collaborators with another graph engine, or another
    printer. *)
Definition with_invoke (c : Collaborators)
    (f : CompiledGraph → AgentState → result AgentState) : Collaborators :=
  {| json_loads := json_loads (Collaborators := c); compile := compile (Collaborators := c);
     invoke := f; print_trading_output := print_trading_output (Collaborators := c);
     strptime := strptime (Collaborators := c); strftime := strftime (Collaborators := c);
     yaml_safe_load_file := yaml_safe_load_file (Collaborators := c) |}.

Definition with_printer (c : Collaborators) (f : RunResult → result unit) : Collaborators :=
  {| json_loads := json_loads (Collaborators := c); compile := compile (Collaborators := c);
     invoke := invoke (Collaborators := c); print_trading_output := f;
     strptime := strptime (Collaborators := c); strftime := strftime (Collaborators := c);
     yaml_safe_load_file := yaml_safe_load_file (Collaborators := c) |}.

(** ** Properties of the builder *)

Section registry.

(** The registry holds exactly the four descriptors. *)
Lemma analyst_nodes_lookup (k n : string) (a : agent) :
  analyst_nodes !! k = Some (n, a) ↔
    (k = "technical_analyst" ∧ n = "technical_analyst_agent" ∧ a = technical_analyst_agent) ∨
    (k = "fundamentals_analyst" ∧ n = "fundamentals_agent" ∧ a = fundamentals_agent) ∨
    (k = "sentiment_analyst" ∧ n = "sentiment_agent" ∧ a = sentiment_agent) ∨
    (k = "valuation_analyst" ∧ n = "valuation_agent" ∧ a = valuation_agent).
Proof.
  unfold analyst_nodes. rewrite !lookup_insert, lookup_empty.
  repeat case_decide; naive_solver.
Qed.

Lemma analyst_nodes_known (k : string) :
  is_Some (analyst_nodes !! k) ↔ k ∈ all_analysts.
Proof.
  unfold all_analysts. rewrite !elem_of_cons, elem_of_nil. split.
  - intros [[n a] H%analyst_nodes_lookup]. naive_solver.
  - intros H. unfold analyst_nodes. rewrite !lookup_insert.
    repeat case_decide; naive_solver.
Qed.

(** Distinct keys have distinct node names. *)
Lemma analyst_nodes_inj (k1 k2 n : string) (a1 a2 : agent) :
  analyst_nodes !! k1 = Some (n, a1) → analyst_nodes !! k2 = Some (n, a2) → k1 = k2.
Proof. rewrite !analyst_nodes_lookup. naive_solver. Qed.

End registry.

Section builder.

Import StateGraph.

Lemma bind_Ok {A B} (a : A) (f : A → result B) : (Ok a ≫= f) = f a.
Proof. reflexivity. Qed.

Lemma bind_Raise {A B} (e : exception) (f : A → result B) : (Raise e ≫= f) = Raise e.
Proof. reflexivity. Qed.

Lemma add_node_fresh (n : string) (a : agent) (g : t) :
  nodes g !! n = None → n ≠ END → n ≠ START →
  add_node n a g = Ok (mk (<[n := a]> (nodes g)) (edges g)).
Proof.
  intros Hn H1 H2. unfold add_node. rewrite Hn.
  case_decide as Hd; [by destruct Hd | done].
Qed.

Lemma add_node_present (n : string) (a : agent) (g : t) :
  is_Some (nodes g !! n) →
  add_node n a g = Raise (ValueError ("Node `" +:+ n +:+ "` already present.")).
Proof. intros [b Hb]. unfold add_node. by rewrite Hb. Qed.

Lemma add_edge_ok (s e : string) (g : t) :
  s ≠ END → e ≠ START →
  add_edge s e g = Ok (mk (nodes g) ({[ (s, e) ]} ∪ edges g)).
Proof. intros H1 H2. unfold add_edge. by repeat case_decide. Qed.

(** The analyst node names are neither reserved nor those of the three
    fixed nodes. *)
Lemma analyst_name_other (k n : string) (a : agent) :
  analyst_nodes !! k = Some (n, a) →
  n ≠ END ∧ n ≠ START ∧ n ≠ "start_node" ∧
  n ≠ "risk_management_agent" ∧ n ≠ "portfolio_management_agent".
Proof.
  rewrite analyst_nodes_lookup. unfold END, START.
  intros [(_ & -> & _)|[(_ & -> & _)|[(_ & -> & _)|(_ & -> & _)]]];
    repeat split; discriminate.
Qed.

Lemma selected_nil (n : string) (a : agent) : ¬ selected [] n a.
Proof. intros (k & Hk & _). by apply elem_of_nil in Hk. Qed.

Lemma selected_cons (k : string) (S : list string) (n : string) (a : agent) :
  selected (k :: S) n a ↔ analyst_nodes !! k = Some (n, a) ∨ selected S n a.
Proof.
  unfold selected. split.
  - intros (k' & [->|Hk']%elem_of_cons & Hl); [by left|right; eauto].
  - intros [Hl|(k' & Hk' & Hl)]; [exists k|exists k']; split; try done.
    + by left.
    + by right.
Qed.

Lemma selected_other (S : list string) (n : string) (a : agent) :
  selected S n a →
  n ≠ END ∧ n ≠ START ∧ n ≠ "start_node" ∧
  n ≠ "risk_management_agent" ∧ n ≠ "portfolio_management_agent".
Proof. intros (k & _ & Hk). by eapply analyst_name_other. Qed.

(** The first loop on a duplicate-free selection of known keys, from a
    graph that has none of their nodes yet. *)
Lemma add_selected_nodes_spec (sel : list string) : ∀ w : t,
  Forall (λ k, k ∈ all_analysts) sel → NoDup sel →
  (∀ n a, selected sel n a → nodes w !! n = None) →
  ∃ w', add_selected_nodes sel w = Ok w' ∧
    (∀ n a, nodes w' !! n = Some a ↔ nodes w !! n = Some a ∨ selected sel n a) ∧
    size (nodes w') = size (nodes w) + length sel ∧
    (∀ s d, (s, d) ∈ edges w' ↔
       (s, d) ∈ edges w ∨ (s = "start_node" ∧ ∃ a, selected sel d a)).
Proof.
  induction sel as [|k sel IH]; intros w Hknown Hnodup Hfresh.
  - exists w. split; [done|]. split; [|split].
    + intros n a. split; [by left|]. by intros [H|H%selected_nil].
    + cbn [length]. lia.
    + intros s d. split; [by left|]. by intros [H|[_ [a H%selected_nil]]].
  - apply Forall_cons in Hknown as [Hk Hknown].
    apply NoDup_cons in Hnodup as [Hnotin Hnodup].
    apply analyst_nodes_known in Hk as [[n a] Hk].
    pose proof (analyst_name_other _ _ _ Hk) as (HE & HS & _).
    assert (nodes w !! n = None) as Hn.
    { apply (Hfresh n a), selected_cons. by left. }
    cbn [add_selected_nodes]. unfold dict_getitem. rewrite Hk, bind_Ok.
    cbn [fst snd].
    rewrite add_node_fresh, bind_Ok by done.
    rewrite add_edge_ok, bind_Ok by done.
    destruct (IH (mk (<[n:=a]> (nodes w)) ({[("start_node", n)]} ∪ edges w)))
      as (w' & Hw' & Hnodes & Hsize & Hedges); [done|done| |].
    { intros n' a' Hsel. cbn [nodes]. rewrite lookup_insert_ne.
      - apply (Hfresh n' a'), selected_cons. by right.
      - intros <-. destruct Hsel as (k' & Hk' & Hl). apply Hnotin.
        by rewrite (analyst_nodes_inj _ _ _ _ _ Hk Hl). }
    exists w'. split; [done|]. cbn [nodes edges] in *. split; [|split].
    + intros n' a'. rewrite Hnodes, selected_cons, lookup_insert_Some. split.
      * intros [[[-> ->]|[_ H]]|H]; auto.
      * intros [H|[H|H]]; auto.
        -- left. destruct (decide (n = n')) as [->|]; [congruence|auto].
        -- left. left. rewrite Hk in H. by inversion H.
    + rewrite Hsize, map_size_insert_None by done. cbn [length]. lia.
    + intros s d. rewrite Hedges, elem_of_union, elem_of_singleton. split.
      * intros [[[= -> ->]|H]|[-> [a' H]]]; auto.
        -- right. split; [done|]. exists a. apply selected_cons. by left.
        -- right. split; [done|]. exists a'. apply selected_cons. by right.
      * intros [H|[-> [a' [H|H]%selected_cons]]]; auto.
        -- left. left. rewrite Hk in H. by inversion H.
        -- right. eauto.
Qed.

(** The second loop on known keys. *)
Lemma connect_selected_spec (sel : list string) : ∀ w : t,
  Forall (λ k, k ∈ all_analysts) sel →
  ∃ w', connect_selected sel w = Ok w' ∧ nodes w' = nodes w ∧
    (∀ s d, (s, d) ∈ edges w' ↔
       (s, d) ∈ edges w ∨ (d = "risk_management_agent" ∧ ∃ a, selected sel s a)).
Proof.
  induction sel as [|k sel IH]; intros w Hknown.
  - exists w. split; [done|]. split; [done|].
    intros s d. split; [by left|]. by intros [H|[_ [a H%selected_nil]]].
  - apply Forall_cons in Hknown as [Hk Hknown].
    apply analyst_nodes_known in Hk as [[n a] Hk].
    pose proof (analyst_name_other _ _ _ Hk) as (HE & HS & _).
    cbn [connect_selected]. unfold dict_getitem. rewrite Hk, bind_Ok.
    cbn [fst snd].
    rewrite add_edge_ok, bind_Ok by done.
    destruct (IH (mk (nodes w) ({[(n, "risk_management_agent")]} ∪ edges w)))
      as (w' & Hw' & Hnodes & Hedges); [done|].
    exists w'. split; [done|]. split; [done|]. cbn [nodes edges] in *.
    intros s d. rewrite Hedges, elem_of_union, elem_of_singleton. split.
    + intros [[[= -> ->]|H]|[-> [a' H]]]; auto.
      * right. split; [done|]. exists a. apply selected_cons. by left.
      * right. split; [done|]. exists a'. apply selected_cons. by right.
    + intros [H|[-> [a' [H|H]%selected_cons]]]; auto.
      * left. left. rewrite Hk in H. by inversion H.
      * right. eauto.
Qed.

End builder.

Section workflow.

Import StateGraph.

(** The graph of a duplicate-free selection of known keys (possibly
    empty). *)
Lemma create_workflow_spec (S : list string) :
  NoDup S → Forall (λ k, k ∈ all_analysts) S →
  ∃ g, create_workflow (Some S) = Ok g ∧
    (∀ n a, nodes g !! n = Some a ↔ workflow_node S n a) ∧
    size (nodes g) = length S + 3 ∧
    (∀ s d, (s, d) ∈ edges g ↔ workflow_edge S s d).
Proof.
  intros Hnodup Hknown. unfold create_workflow.
  rewrite add_node_fresh, bind_Ok by done. cbv zeta. cbn [nodes edges new].
  destruct (add_selected_nodes_spec S (mk (<["start_node":=start]> ∅) ∅))
    as (w1 & -> & Hn1 & Hs1 & He1); [done|done| |].
  { intros n a (_ & _ & Hne & _)%selected_other. cbn [nodes].
    by rewrite lookup_insert_ne, lookup_empty. }
  cbn [nodes edges] in *. rewrite bind_Ok.
  rewrite map_size_insert_None, map_size_empty in Hs1 by apply lookup_empty.
  assert (∀ n a, nodes w1 !! n = Some a ↔
            (n = "start_node" ∧ a = start) ∨ selected S n a) as Hn1'.
  { intros n a. rewrite Hn1, lookup_insert_Some, lookup_empty. split.
    - intros [[[<- <-]|[_ [=]]]|H]; [by left|by right].
    - intros [[-> ->]|H]; [left; by left|by right]. }
  assert (∀ s d, (s, d) ∈ edges w1 ↔ s = "start_node" ∧ ∃ a, selected S d a) as He1'.
  { intros s d. rewrite He1. split; [|by right].
    by intros [H%not_elem_of_empty|H]. }
  clear Hn1 He1.
  assert (nodes w1 !! "risk_management_agent" = None) as Hr.
  { destruct (nodes w1 !! "risk_management_agent") eqn:E; [|reflexivity].
    apply Hn1' in E as [[E _]|E]; [discriminate E|].
    apply selected_other in E as (_ & _ & _ & E & _). by destruct E. }
  assert (nodes w1 !! "portfolio_management_agent" = None) as Hp.
  { destruct (nodes w1 !! "portfolio_management_agent") eqn:E; [|reflexivity].
    apply Hn1' in E as [[E _]|E]; [discriminate E|].
    apply selected_other in E as (_ & _ & _ & _ & E). by destruct E. }
  rewrite add_node_fresh, bind_Ok by (assumption || discriminate).
  rewrite add_node_fresh, bind_Ok; [|cbn [nodes]|discriminate|discriminate].
  2: { rewrite lookup_insert_ne; [assumption|discriminate]. }
  cbn [nodes edges].
  match goal with |- context [connect_selected S ?w] =>
    destruct (connect_selected_spec S w) as (w2 & -> & Hn2 & He2); [assumption|] end.
  cbn [nodes edges] in *. rewrite bind_Ok.
  rewrite add_edge_ok, bind_Ok by discriminate.
  rewrite add_edge_ok, bind_Ok by discriminate.
  unfold set_entry_point. rewrite add_edge_ok by discriminate.
  eexists. split; [reflexivity|]. cbn [nodes edges]. split; [|split].
  - intros n a. rewrite Hn2, !lookup_insert_Some, Hn1'.
    unfold workflow_node. split.
    + intros [[<- <-]|[_ [[<- <-]|[_ [[-> ->]|H]]]]].
      * right. right. left. by split.
      * right. left. by split.
      * left. by split.
      * by do 3 right.
    + intros [[-> ->]|[[-> ->]|[[-> ->]|H]]].
      * right. split; [discriminate|]. right. split; [discriminate|].
        left. by split.
      * right. split; [discriminate|]. left. by split.
      * left. by split.
      * pose proof (selected_other _ _ _ H) as (_ & _ & _ & H1 & H2).
        right. split; [by intros <-|]. right. split; [by intros <-|].
        by right.
  - rewrite Hn2, !map_size_insert_None, Hs1; [lia|assumption|].
    rewrite lookup_insert_ne; [assumption|discriminate].
  - intros s d. rewrite !elem_of_union, !elem_of_singleton, He2, He1'.
    rewrite !pair_equal_spec. unfold workflow_edge. tauto.
Qed.

End workflow.

Section paths.

Import StateGraph.

Variable S : list string.

Lemma succ_START (d : string) : workflow_edge S START d → d = "start_node".
Proof.
  intros [[_ ->]|[[E _]|[[_ [a H]]|[[E _]|[E _]]]]]; try discriminate E.
  - reflexivity.
  - apply selected_other in H as (_ & H & _). by destruct H.
Qed.

Lemma succ_start_node (d : string) :
  workflow_edge S "start_node" d → ∃ a, selected S d a.
Proof.
  intros [[E _]|[[_ H]|[[_ [a H]]|[[E _]|[E _]]]]]; try discriminate E.
  - exact H.
  - apply selected_other in H as (_ & _ & H & _). by destruct H.
Qed.

Lemma succ_selected (s d : string) (a : agent) :
  selected S s a → workflow_edge S s d → d = "risk_management_agent".
Proof.
  intros (HE & HS & Hst & Hr & Hp)%selected_other.
  intros [[E _]|[[E _]|[[E _]|[[E _]|[E _]]]]]; by subst.
Qed.

Lemma succ_risk (d : string) :
  workflow_edge S "risk_management_agent" d → d = "portfolio_management_agent".
Proof.
  intros [[E _]|[[E _]|[[_ [a H]]|[[_ ->]|[E _]]]]]; try discriminate E.
  - apply selected_other in H as (_ & _ & _ & H & _). by destruct H.
  - reflexivity.
Qed.

Lemma succ_portfolio (d : string) :
  workflow_edge S "portfolio_management_agent" d → d = END.
Proof.
  intros [[E _]|[[E _]|[[_ [a H]]|[[E _]|[_ ->]]]]]; try discriminate E.
  - apply selected_other in H as (_ & _ & _ & _ & H). by destruct H.
  - reflexivity.
Qed.

Lemma succ_END (d : string) : ¬ workflow_edge S END d.
Proof.
  intros [[E _]|[[E _]|[[_ [a H]]|[[E _]|[E _]]]]]; try discriminate E.
  apply selected_other in H as (H & _). by destruct H.
Qed.

(** In a graph with the edges of the workflow of [S], the execution
    paths are exactly: [START], [start_node], one selected analyst,
    [risk_management_agent], [portfolio_management_agent], [END]. *)
Lemma workflow_paths (g : t) (p : list string) :
  (∀ s d, (s, d) ∈ edges g ↔ workflow_edge S s d) →
  execution_path g p ↔
    ∃ n a, selected S n a ∧
      p = [START; "start_node"; n; "risk_management_agent";
           "portfolio_management_agent"; END].
Proof.
  intros He. unfold execution_path. split.
  - intros (Hhd & Hlast & Hwalk).
    destruct p as [|x0 p]; [discriminate Hhd|].
    injection Hhd as ->.
    destruct p as [|x1 p]; [discriminate Hlast|].
    destruct Hwalk as [->%He%succ_START Hwalk].
    destruct p as [|x2 p]; [discriminate Hlast|].
    destruct Hwalk as [[a Hsel]%He%succ_start_node Hwalk].
    destruct p as [|x3 p].
    { injection Hlast as ->. apply selected_other in Hsel as (H & _). by destruct H. }
    destruct Hwalk as [->%He%(succ_selected _ _ _ Hsel) Hwalk].
    destruct p as [|x4 p]; [discriminate Hlast|].
    destruct Hwalk as [->%He%succ_risk Hwalk].
    destruct p as [|x5 p]; [discriminate Hlast|].
    destruct Hwalk as [->%He%succ_portfolio Hwalk].
    destruct p as [|x6 p].
    + exists x2, a. by split.
    + destruct Hwalk as [H%He%succ_END _]. destruct H.
  - intros (n & a & Hsel & ->). split; [reflexivity|]. split; [reflexivity|].
    cbn [is_walk]. rewrite !He. unfold workflow_edge.
    repeat split; eauto 10.
Qed.

Lemma workflow_path_precedes (n : string) (a : agent) :
  selected S n a →
  precedes "risk_management_agent" "portfolio_management_agent"
    [START; "start_node"; n; "risk_management_agent";
     "portfolio_management_agent"; END].
Proof.
  intros (_ & _ & _ & _ & Hp)%selected_other i Hi. exists 3.
  split; [|reflexivity].
  do 4 (destruct i as [|i]; [injection Hi as Hi; by (discriminate Hi || destruct Hp)|]).
  lia.
Qed.

Lemma workflow_entry_point (g : t) (n : string) :
  (∀ s d, (s, d) ∈ edges g ↔ workflow_edge S s d) →
  is_entry_point g n ↔ n = "start_node".
Proof.
  intros He. unfold is_entry_point. rewrite He. split.
  - apply succ_START.
  - intros ->. by left.
Qed.

End paths.

Section failures.

Import StateGraph.

Lemma unknown_key_lookup (k : string) : k ∉ all_analysts ↔ analyst_nodes !! k = None.
Proof. rewrite <-analyst_nodes_known, eq_None_not_Some. reflexivity. Qed.

(** One iteration of the first loop on a known key whose node is new. *)
Lemma add_selected_nodes_step (k n : string) (a : agent) (rest : list string) (w : t) :
  analyst_nodes !! k = Some (n, a) → nodes w !! n = None →
  add_selected_nodes (k :: rest) w =
    add_selected_nodes rest (mk (<[n:=a]> (nodes w)) ({[("start_node", n)]} ∪ edges w)).
Proof.
  intros Hk Hn. pose proof (analyst_name_other _ _ _ Hk) as (HE & HS & _).
  cbn [add_selected_nodes]. unfold dict_getitem. rewrite Hk, bind_Ok. cbn [fst snd].
  rewrite add_node_fresh, bind_Ok by assumption.
  by rewrite add_edge_ok, bind_Ok by (assumption || discriminate).
Qed.

(** One iteration of the first loop on a known key whose node is already
    registered. *)
Lemma add_selected_nodes_again (k n : string) (a : agent) (rest : list string) (w : t) :
  analyst_nodes !! k = Some (n, a) → is_Some (nodes w !! n) →
  add_selected_nodes (k :: rest) w =
    Raise (ValueError ("Node `" +:+ n +:+ "` already present.")).
Proof.
  intros Hk Hn.
  cbn [add_selected_nodes]. unfold dict_getitem. rewrite Hk, bind_Ok. cbn [fst snd].
  by rewrite add_node_present, bind_Raise.
Qed.

(** Freshness of the remaining names after one iteration. *)
Lemma fresh_after_step (k n : string) (a : agent) (rest : list string)
    (m : gmap string agent) :
  analyst_nodes !! k = Some (n, a) → k ∉ rest →
  (∀ n' a', selected (k :: rest) n' a' → m !! n' = None) →
  ∀ n' a', selected rest n' a' → <[n:=a]> m !! n' = None.
Proof.
  intros Hk Hnotin Hfresh n' a' Hsel. rewrite lookup_insert_ne.
  - apply (Hfresh n' a'), selected_cons. by right.
  - intros <-. destruct Hsel as (k' & Hk' & Hl). apply Hnotin.
    by rewrite (analyst_nodes_inj _ _ _ _ _ Hk Hl).
Qed.

(** A selection of known keys that repeats a key, or meets a node that is
    already there, is rejected by [add_node]. *)
Lemma add_selected_nodes_repeated (sel : list string) : ∀ w : t,
  Forall (λ k, k ∈ all_analysts) sel →
  ¬ (NoDup sel ∧ ∀ n a, selected sel n a → nodes w !! n = None) →
  ∃ n a, selected sel n a ∧
    add_selected_nodes sel w = Raise (ValueError ("Node `" +:+ n +:+ "` already present.")).
Proof.
  induction sel as [|k sel IH]; intros w Hknown Hbad.
  - destruct Hbad. split; [constructor|]. by intros n a H%selected_nil.
  - apply Forall_cons in Hknown as [Hk Hknown].
    apply analyst_nodes_known in Hk as [[n a] Hk].
    destruct (nodes w !! n) as [b|] eqn:Hn.
    + exists n, a. split; [apply selected_cons; by left|].
      by apply (add_selected_nodes_again _ _ a).
    + rewrite (add_selected_nodes_step _ _ _ _ _ Hk Hn).
      destruct (IH (mk (<[n:=a]> (nodes w)) ({[("start_node", n)]} ∪ edges w)))
        as (n' & a' & Hsel & Hr); [assumption| |].
      * cbn [nodes]. intros [Hnodup Hfresh]. apply Hbad.
        assert (k ∉ sel) as Hnotin.
        { intros Hin. assert (selected sel n a) as Hs by (exists k; by split).
          apply Hfresh in Hs. by rewrite lookup_insert_eq in Hs. }
        split; [by constructor|].
        intros n0 a0 [H|H]%selected_cons.
        -- rewrite Hk in H. by injection H as <- <-.
        -- apply Hfresh in H. apply lookup_insert_None in H as [H _]. exact H.
      * exists n', a'. split; [apply selected_cons; by right|exact Hr].
Qed.

(** A selection holding an unknown key never gets through the first
    loop. *)
Lemma add_selected_nodes_unknown (sel : list string) : ∀ w : t,
  (∃ k, k ∈ sel ∧ k ∉ all_analysts) →
  ∃ e, add_selected_nodes sel w = Raise e ∧
    ((∃ k, k ∈ sel ∧ (k ∉ all_analysts) ∧ e = KeyError k) ∨
     (∃ n, e = ValueError ("Node `" +:+ n +:+ "` already present."))).
Proof.
  induction sel as [|k sel IH]; intros w (k0 & Hin & Hunk).
  - by apply elem_of_nil in Hin.
  - destruct (analyst_nodes !! k) as [[n a]|] eqn:Hk.
    + assert (k0 ∈ sel) as Hin'.
      { apply elem_of_cons in Hin as [->|H]; [|exact H].
        apply unknown_key_lookup in Hunk. congruence. }
      destruct (nodes w !! n) as [b|] eqn:Hn.
      * eexists. split.
        { apply (add_selected_nodes_again k n a); [exact Hk|by rewrite Hn]. }
        right. by exists n.
      * rewrite (add_selected_nodes_step _ _ _ _ _ Hk Hn).
        destruct (IH (mk (<[n:=a]> (nodes w)) ({[("start_node", n)]} ∪ edges w)))
          as (e & He & Hcase); [by exists k0|].
        exists e. split; [exact He|].
        destruct Hcase as [(k1 & H1 & H2 & H3)|H]; [left|by right].
        exists k1. split; [by right|by split].
    + exists (KeyError k). split.
      * cbn [add_selected_nodes]. unfold dict_getitem. by rewrite Hk, bind_Raise.
      * left. exists k. split; [by left|]. split; [|reflexivity].
        by apply unknown_key_lookup.
Qed.

(** With pairwise distinct keys and no clash in the graph, the failure
    is the [KeyError] of the first unknown key. *)
Lemma add_selected_nodes_unknown_nodup (sel : list string) : ∀ w : t,
  (∃ k, k ∈ sel ∧ k ∉ all_analysts) → NoDup sel →
  (∀ n a, selected sel n a → nodes w !! n = None) →
  ∃ k, k ∈ sel ∧ (k ∉ all_analysts) ∧ add_selected_nodes sel w = Raise (KeyError k).
Proof.
  induction sel as [|k sel IH]; intros w (k0 & Hin & Hunk) Hnodup Hfresh.
  - by apply elem_of_nil in Hin.
  - apply NoDup_cons in Hnodup as [Hnotin Hnodup].
    destruct (analyst_nodes !! k) as [[n a]|] eqn:Hk.
    + assert (k0 ∈ sel) as Hin'.
      { apply elem_of_cons in Hin as [->|H]; [|exact H].
        apply unknown_key_lookup in Hunk. congruence. }
      assert (nodes w !! n = None) as Hn.
      { apply (Hfresh n a), selected_cons. by left. }
      rewrite (add_selected_nodes_step _ _ _ _ _ Hk Hn).
      destruct (IH (mk (<[n:=a]> (nodes w)) ({[("start_node", n)]} ∪ edges w)))
        as (k1 & H1 & H2 & H3); [by exists k0|assumption| |].
      * cbn [nodes]. by apply (fresh_after_step k).
      * exists k1. split; [by right|by split].
    + exists k. split; [by left|]. split; [by apply unknown_key_lookup|].
      cbn [add_selected_nodes]. unfold dict_getitem. by rewrite Hk, bind_Raise.
Qed.

(** [create_workflow] starts the first loop from the graph holding
    [start_node] alone, which clashes with no analyst node. *)
Lemma create_workflow_unfold (S : list string) :
  create_workflow (Some S) =
    add_selected_nodes S (mk (<["start_node":=start]> ∅) ∅) ≫= λ workflow,
    add_node "risk_management_agent" risk_management_agent workflow ≫= λ workflow,
    add_node "portfolio_management_agent" portfolio_management_agent workflow ≫= λ workflow,
    connect_selected S workflow ≫= λ workflow,
    add_edge "risk_management_agent" "portfolio_management_agent" workflow ≫= λ workflow,
    add_edge "portfolio_management_agent" END workflow ≫= λ workflow,
    set_entry_point "start_node" workflow.
Proof.
  unfold create_workflow.
  rewrite add_node_fresh, bind_Ok; [reflexivity|apply lookup_empty|discriminate|discriminate].
Qed.

Lemma start_graph_fresh (S : list string) (n : string) (a : agent) :
  selected S n a → (<["start_node":=start]> ∅ : gmap string agent) !! n = None.
Proof.
  intros (_ & _ & Hne & _)%selected_other.
  rewrite lookup_insert_ne; [apply lookup_empty|by intros <-].
Qed.

Lemma selected_snoc (l : list string) (k n : string) (a : agent) :
  selected (l ++ [k])%list n a ↔ selected l n a ∨ analyst_nodes !! k = Some (n, a).
Proof.
  unfold selected. split.
  - intros (k' & [Hk'| ->%list_elem_of_singleton]%elem_of_app & Hl); [left; eauto|by right].
  - intros [(k' & Hk' & Hl)|Hl]; [exists k'|exists k]; (split; [|exact Hl]);
      apply elem_of_app; [by left|right; by apply list_elem_of_singleton].
Qed.

(** The first loop on known keys with a repetition: it stops at the
    second occurrence of the first key that comes twice, whose node
    [add_node] finds already registered. [seen] are the keys whose nodes
    the graph holds beside [start_node]. *)
Lemma add_selected_nodes_first_repeat (sel : list string) : ∀ (seen : list string) (w : t),
  Forall (λ k, k ∈ all_analysts) sel →
  (∀ n, is_Some (nodes w !! n) ↔ n = "start_node" ∨ ∃ a, selected seen n a) →
  NoDup seen → ¬ NoDup (seen ++ sel)%list →
  ∃ l1 l2 k n a, sel = (l1 ++ k :: l2)%list ∧ NoDup (seen ++ l1)%list ∧
    k ∈ (seen ++ l1)%list ∧
    analyst_nodes !! k = Some (n, a) ∧
    add_selected_nodes sel w = Raise (ValueError ("Node `" +:+ n +:+ "` already present.")).
Proof.
  induction sel as [|k rest IH]; intros seen w Hknown Hinv Hseen Hdup.
  - destruct Hdup. by rewrite app_nil_r.
  - apply Forall_cons in Hknown as [Hk Hknown].
    apply analyst_nodes_known in Hk as [[n a] Hk].
    destruct (decide (k ∈ seen)) as [Hin|Hnotin].
    + exists [], rest, k, n, a. rewrite app_nil_r.
      split; [reflexivity|]. split; [exact Hseen|]. split; [exact Hin|].
      split; [exact Hk|]. apply (add_selected_nodes_again k n a); [exact Hk|].
      apply Hinv. right. exists a, k. by split.
    + assert (nodes w !! n = None) as Hn.
      { apply eq_None_not_Some. intros [E|[a' (k' & Hk' & Hl)]]%Hinv.
        - apply analyst_name_other in Hk as (_ & _ & Hne & _). by destruct Hne.
        - apply Hnotin. by rewrite (analyst_nodes_inj _ _ _ _ _ Hk Hl). }
      rewrite (add_selected_nodes_step _ _ _ _ _ Hk Hn).
      destruct (IH (seen ++ [k])%list (mk (<[n:=a]> (nodes w)) ({[("start_node", n)]} ∪ edges w)))
        as (l1 & l2 & k' & n' & a' & Hsel & Hnd & Hin' & Hk' & Hraise).
      * exact Hknown.
      * intros n0. cbn [nodes]. rewrite lookup_insert_is_Some, Hinv.
        setoid_rewrite selected_snoc. split.
        -- intros [<-|[Hne [->|[a0 H0]]]]; [right; exists a; by right|by left|].
           right. exists a0. by left.
        -- intros [->|[a0 [H0|H0]]].
           ++ right. split; [|by left].
              apply analyst_name_other in Hk as (_ & _ & Hne & _). exact Hne.
           ++ destruct (decide (n = n0)) as [->|Hne]; [by left|].
              right. split; [exact Hne|]. right. by exists a0.
           ++ left. rewrite Hk in H0. by injection H0.
      * apply NoDup_app. split; [exact Hseen|]. split; [|apply NoDup_singleton].
        intros x Hx ->%list_elem_of_singleton. by apply Hnotin.
      * by rewrite <-app_assoc.
      * rewrite <-app_assoc in Hnd, Hin'. cbn [app] in Hnd, Hin'.
        exists (k :: l1), l2, k', n', a'. subst rest.
        repeat split; (reflexivity || assumption).
Qed.

Lemma start_graph_nodes (n : string) :
  is_Some ((<["start_node":=start]> ∅ : gmap string agent) !! n) ↔
    n = "start_node" ∨ ∃ a, selected [] n a.
Proof.
  rewrite lookup_insert_is_Some, lookup_empty. split.
  - intros [<-|[_ [x [=]]]]. by left.
  - intros [->|[a H%selected_nil]]; [by left|done].
Qed.

End failures.

(** ** The builder: claims *)

(** Decidable closed facts, by evaluation. *)
Ltac by_compute := apply (bool_decide_unpack _); vm_compute; exact I.

Section builder_claims.

Import StateGraph.

Lemma all_analysts_known : Forall (λ k, k ∈ all_analysts) all_analysts.
Proof. by apply Forall_forall. Qed.

Lemma all_analysts_NoDup : NoDup all_analysts.
Proof. by_compute. Qed.

(** C1, as stated, fails on a selection of known keys that repeats a key:
    the second [add_node] of [technical_analyst_agent] is rejected and no
    graph is returned. *)
Lemma create_workflow_repeated_selection_no_graph :
  Forall (λ k, k ∈ all_analysts) ["technical_analyst"; "technical_analyst"] ∧
  create_workflow (Some ["technical_analyst"; "technical_analyst"]) =
    Raise (ValueError "Node `technical_analyst_agent` already present.").
Proof.
  split; [|vm_compute; reflexivity].
  apply Forall_forall. intros k [->|[->|[]%elem_of_nil]%elem_of_cons]%elem_of_cons;
    by left.
Qed.

(** C1 (amended): for every non-empty selection [S] of pairwise distinct
    known analyst keys, [create_workflow S] returns a graph whose nodes
    are [start_node], [risk_management_agent],
    [portfolio_management_agent] and one node per key of [S], so
    [length S + 3] nodes; its edges are [START] to [start_node] (the entry
    point), [start_node] to each selected analyst, each selected analyst
    to [risk_management_agent], [risk_management_agent] to
    [portfolio_management_agent] and [portfolio_management_agent] to
    [END]; an execution path exists, and on every execution path
    [risk_management_agent] precedes [portfolio_management_agent]. *)
Theorem create_workflow_graph (S : list string) :
  S ≠ [] → NoDup S → Forall (λ k, k ∈ all_analysts) S →
  ∃ g, create_workflow (Some S) = Ok g ∧
    (∀ n a, nodes g !! n = Some a ↔ workflow_node S n a) ∧
    size (nodes g) = length S + 3 ∧
    (∀ s d, (s, d) ∈ edges g ↔ workflow_edge S s d) ∧
    (∀ n, is_entry_point g n ↔ n = "start_node") ∧
    (∃ p, execution_path g p) ∧
    (∀ p, execution_path g p →
       precedes "risk_management_agent" "portfolio_management_agent" p).
Proof.
  intros Hne Hnodup Hknown.
  destruct (create_workflow_spec S Hnodup Hknown) as (g & Hg & Hnodes & Hsize & Hedges).
  exists g. split; [exact Hg|]. split; [exact Hnodes|]. split; [exact Hsize|].
  split; [exact Hedges|]. split; [|split].
  - intros n. by apply (workflow_entry_point S).
  - destruct S as [|k S']; [by destruct Hne|].
    apply Forall_cons in Hknown as [[[n a] Hk]%analyst_nodes_known _].
    eexists. apply (workflow_paths (k :: S') g _ Hedges).
    exists n, a. split; [|reflexivity]. apply selected_cons. by left.
  - intros p (n & a & Hsel & ->)%(workflow_paths S g p Hedges).
    by apply (workflow_path_precedes S n a).
Qed.

Lemma create_workflow_graph_witness :
  ∃ g, create_workflow (Some ["technical_analyst"; "valuation_analyst"]) = Ok g ∧
    (∀ n a, nodes g !! n = Some a ↔
       workflow_node ["technical_analyst"; "valuation_analyst"] n a) ∧
    size (nodes g) = 5 ∧
    (∀ s d, (s, d) ∈ edges g ↔ workflow_edge ["technical_analyst"; "valuation_analyst"] s d) ∧
    (∀ n, is_entry_point g n ↔ n = "start_node") ∧
    (∃ p, execution_path g p) ∧
    (∀ p, execution_path g p →
       precedes "risk_management_agent" "portfolio_management_agent" p).
Proof.
  apply (create_workflow_graph ["technical_analyst"; "valuation_analyst"]).
  - discriminate.
  - by_compute.
  - apply Forall_forall.
    intros k [->|[->|[]%elem_of_nil]%elem_of_cons]%elem_of_cons;
      by_compute.
Defined.

(** C2, as stated, fails: on an unknown key the exception is Python's
    [KeyError], not an [UnknownAnalystError]. *)
Lemma create_workflow_unknown_key_is_KeyError :
  create_workflow (Some ["momentum_analyst"]) = Raise (KeyError "momentum_analyst") ∧
  exc_class (KeyError "momentum_analyst") ≠ "UnknownAnalystError".
Proof. split; [vm_compute; reflexivity|discriminate]. Qed.

(** C2 (amended): for every selection containing a key outside the
    registry, [create_workflow] raises and returns no graph; the exception
    is the [KeyError] of an unknown key of the selection, or, only when
    the selection repeats a key, the builder's [ValueError] for a node
    that is already present. *)
Theorem create_workflow_unknown_key (S : list string) :
  (∃ k, k ∈ S ∧ k ∉ all_analysts) →
  ∃ e, create_workflow (Some S) = Raise e ∧
    ((∃ k, k ∈ S ∧ (k ∉ all_analysts) ∧ e = KeyError k) ∨
     (¬ NoDup S ∧ ∃ n, e = ValueError ("Node `" +:+ n +:+ "` already present."))).
Proof.
  intros Hunk. rewrite create_workflow_unfold.
  destruct (decide (NoDup S)) as [Hnodup|Hdup].
  - destruct (add_selected_nodes_unknown_nodup S (mk (<["start_node":=start]> ∅) ∅))
      as (k & Hin & Hk & ->); [exact Hunk|exact Hnodup| |].
    + intros n a. apply start_graph_fresh.
    + exists (KeyError k). split; [reflexivity|]. left. by exists k.
  - destruct (add_selected_nodes_unknown S (mk (<["start_node":=start]> ∅) ∅) Hunk)
      as (e & -> & Hcase).
    exists e. split; [reflexivity|]. destruct Hcase as [H|H]; [by left|by right].
Qed.

Lemma create_workflow_unknown_key_witness :
  ∃ e, create_workflow (Some ["technical_analyst"; "momentum_analyst"]) = Raise e ∧
    ((∃ k, k ∈ ["technical_analyst"; "momentum_analyst"] ∧ (k ∉ all_analysts) ∧
        e = KeyError k) ∨
     (¬ NoDup ["technical_analyst"; "momentum_analyst"] ∧
      ∃ n, e = ValueError ("Node `" +:+ n +:+ "` already present."))).
Proof.
  apply (create_workflow_unknown_key ["technical_analyst"; "momentum_analyst"]).
  exists "momentum_analyst". split.
  - by_compute.
  - by_compute.
Defined.

(** C6, as stated, fails: a key given twice is not deduplicated; the
    builder rejects the second registration and no graph is returned. *)
Lemma create_workflow_no_deduplication :
  create_workflow (Some ["sentiment_analyst"; "valuation_analyst"; "sentiment_analyst"]) =
    Raise (ValueError "Node `sentiment_agent` already present.").
Proof. vm_compute. reflexivity. Qed.

(** C6 (amended): [create_workflow] does not deduplicate. For every
    selection of known keys in which a key appears more than once, the
    run stops at the second occurrence of the first key that comes twice:
    the builder rejects the repeated registration of that key's node with
    [ValueError] and no graph is returned. A selection of known keys
    without repeated keys gets exactly one node per key, so
    [length S + 3] nodes, distinct keys having distinct nodes, and
    exactly one edge into [risk_management_agent] per key: these edges
    are the ones that leave the nodes of the selected keys, and there are
    [length S] of them. *)
Theorem create_workflow_repeated_key (S : list string) :
  Forall (λ k, k ∈ all_analysts) S →
  (¬ NoDup S →
     ∃ l1 l2 k n a, S = (l1 ++ k :: l2)%list ∧ NoDup l1 ∧ k ∈ l1 ∧
       analyst_nodes !! k = Some (n, a) ∧
       create_workflow (Some S) =
         Raise (ValueError ("Node `" +:+ n +:+ "` already present."))) ∧
  (NoDup S →
     ∃ g, create_workflow (Some S) = Ok g ∧
       (∀ n a, nodes g !! n = Some a ↔ workflow_node S n a) ∧
       size (nodes g) = length S + 3 ∧
       (∀ k1 k2 n a1 a2, analyst_nodes !! k1 = Some (n, a1) →
          analyst_nodes !! k2 = Some (n, a2) → k1 = k2) ∧
       (∀ k, k ∈ S → ∃ n a, analyst_nodes !! k = Some (n, a) ∧ nodes g !! n = Some a ∧
          ∀ d, (n, d) ∈ edges g ↔ d = "risk_management_agent") ∧
       (∀ s, (s, "risk_management_agent") ∈ edges g ↔ ∃ a, selected S s a) ∧
       size (filter (λ e, e.2 = "risk_management_agent") (edges g)) = length S).
Proof.
  intros Hknown. split.
  - intros Hdup. rewrite create_workflow_unfold.
    destruct (add_selected_nodes_first_repeat S [] (mk (<["start_node":=start]> ∅) ∅))
      as (l1 & l2 & k & n & a & HS & Hnd & Hin & Hk & ->);
      [exact Hknown|apply start_graph_nodes|constructor|exact Hdup|].
    by exists l1, l2, k, n, a.
  - intros Hnodup. pose proof (proj1 (Forall_forall _ _) Hknown) as Hknown'.
    destruct (create_workflow_spec S Hnodup Hknown) as (g & Hg & Hnodes & Hsize & Hedges).
    exists g. split; [exact Hg|]. split; [exact Hnodes|]. split; [exact Hsize|].
    split; [apply analyst_nodes_inj|].
    assert (∀ s, (s, "risk_management_agent") ∈ edges g ↔ ∃ a, selected S s a) as Hinto.
    { intros s. rewrite Hedges. split.
      - intros [[_ E]|[[-> [a H]]|[[_ H]|[[_ E]|[_ E]]]]]; try discriminate E; [|exact H].
        apply selected_other in H as (_ & _ & _ & H & _). by destruct H.
      - intros H. do 2 right. left. by split. }
    split; [|split; [exact Hinto|]].
    + intros k Hk. pose proof (Hknown' _ Hk) as [[n a] Hl]%analyst_nodes_known.
      assert (selected S n a) as Hsel by (by exists k).
      exists n, a. split; [exact Hl|]. split; [apply Hnodes; by do 3 right|].
      intros d. rewrite Hedges. split.
      * apply (succ_selected S n d a Hsel).
      * intros ->. do 2 right. left. split; [reflexivity|by exists a].
    + set (name := λ k : string, (from_option id (EmptyString, start) (analyst_nodes !! k)).1).
      assert (filter (λ e, e.2 = "risk_management_agent") (edges g) =
              list_to_set ((λ k, (name k, "risk_management_agent")) <$> S)) as ->.
      { apply set_eq. intros [s d].
        rewrite elem_of_filter, elem_of_list_to_set, list_elem_of_fmap. cbn [snd]. split.
        - intros [-> [a (k & Hk & Hl)]%Hinto]. exists k. split; [|exact Hk].
          unfold name. by rewrite Hl.
        - intros (k & [= -> ->] & Hk). split; [reflexivity|]. apply Hinto.
          pose proof (Hknown' _ Hk) as [[n a] Hl]%analyst_nodes_known.
          exists a, k. split; [exact Hk|]. unfold name. by rewrite Hl. }
      rewrite size_list_to_set, length_fmap; [reflexivity|].
      apply NoDup_fmap_2_strong; [|exact Hnodup].
      intros k1 k2 Hk1 Hk2 [= E].
      pose proof (Hknown' _ Hk1) as [[n1 a1] Hl1]%analyst_nodes_known.
      pose proof (Hknown' _ Hk2) as [[n2 a2] Hl2]%analyst_nodes_known.
      unfold name in E. rewrite Hl1, Hl2 in E. cbn in E. subst n2.
      exact (analyst_nodes_inj _ _ _ _ _ Hl1 Hl2).
Qed.

Lemma create_workflow_repeated_key_witness :
  (∃ l1 l2 k n a,
     ["fundamentals_analyst"; "sentiment_analyst"; "fundamentals_analyst"]
       = (l1 ++ k :: l2)%list ∧
     NoDup l1 ∧ k ∈ l1 ∧ analyst_nodes !! k = Some (n, a) ∧
     create_workflow (Some ["fundamentals_analyst"; "sentiment_analyst";
                            "fundamentals_analyst"]) =
       Raise (ValueError ("Node `" +:+ n +:+ "` already present."))) ∧
  (∃ g, create_workflow (Some ["fundamentals_analyst"; "sentiment_analyst"]) = Ok g ∧
     (∀ n a, nodes g !! n = Some a ↔
        workflow_node ["fundamentals_analyst"; "sentiment_analyst"] n a) ∧
     size (nodes g) = 5 ∧
     (∀ k1 k2 n a1 a2, analyst_nodes !! k1 = Some (n, a1) →
        analyst_nodes !! k2 = Some (n, a2) → k1 = k2) ∧
     (∀ k, k ∈ ["fundamentals_analyst"; "sentiment_analyst"] →
        ∃ n a, analyst_nodes !! k = Some (n, a) ∧ nodes g !! n = Some a ∧
          ∀ d, (n, d) ∈ edges g ↔ d = "risk_management_agent") ∧
     (∀ s, (s, "risk_management_agent") ∈ edges g ↔
        ∃ a, selected ["fundamentals_analyst"; "sentiment_analyst"] s a) ∧
     size (filter (λ e, e.2 = "risk_management_agent") (edges g)) = 2).
Proof.
  split.
  - apply (create_workflow_repeated_key
             ["fundamentals_analyst"; "sentiment_analyst"; "fundamentals_analyst"]);
      by_compute.
  - apply (create_workflow_repeated_key ["fundamentals_analyst"; "sentiment_analyst"]);
      by_compute.
Defined.

(** C7, as stated, fails on the empty selection: [create_workflow([])]
    builds the three fixed nodes and no analyst node. *)
Lemma create_workflow_empty_selection :
  ∃ g, create_workflow (Some []) = Ok g ∧ size (nodes g) = 3 ∧
    ∀ k n a, analyst_nodes !! k = Some (n, a) → nodes g !! n = None.
Proof.
  destruct (create_workflow_spec []) as (g & Hg & Hnodes & Hsize & _);
    [constructor|constructor|].
  exists g. split; [exact Hg|]. split; [exact Hsize|].
  intros k n a Hk. destruct (nodes g !! n) as [b|] eqn:Hn; [|reflexivity].
  pose proof (analyst_name_other _ _ _ Hk) as (_ & _ & H1 & H2 & H3).
  apply Hnodes in Hn as [[E _]|[[E _]|[[E _]|E%selected_nil]]]; by subst.
Qed.

(** C7 (amended): for every call of [create_workflow] with an absent
    selection ([None]) the graph contains all four analysts, each wired
    [start_node] to analyst to [risk_management_agent]; and the script
    turns an empty or cancelled choice at the prompt into the absent
    selection before it calls [create_workflow]. *)
Theorem create_workflow_default :
  (∃ g, create_workflow None = Ok g ∧
     size (nodes g) = 7 ∧
     (∀ n a, nodes g !! n = Some a ↔ workflow_node all_analysts n a) ∧
     (∀ s d, (s, d) ∈ edges g ↔ workflow_edge all_analysts s d) ∧
     ∀ k, k ∈ all_analysts →
       ∃ n a, analyst_nodes !! k = Some (n, a) ∧ nodes g !! n = Some a ∧
         ("start_node", n) ∈ edges g ∧ (n, "risk_management_agent") ∈ edges g) ∧
  select_analysts None = ([UsingAllAnalysts], Ok None) ∧
  select_analysts (Some []) = ([UsingAllAnalysts], Ok None).
Proof.
  split; [|split; reflexivity].
  destruct (create_workflow_spec all_analysts all_analysts_NoDup all_analysts_known)
    as (g & Hg & Hnodes & Hsize & Hedges).
  exists g. split; [exact Hg|]. split; [exact Hsize|]. split; [exact Hnodes|].
  split; [exact Hedges|].
  intros k Hk. pose proof Hk as [[n a] Hl]%analyst_nodes_known.
  assert (selected all_analysts n a) as Hsel by (by exists k).
  exists n, a. split; [exact Hl|]. split; [|split].
  - apply Hnodes. by do 3 right.
  - apply Hedges. right. left. split; [reflexivity|by exists a].
  - apply Hedges. do 2 right. left. split; [reflexivity|by exists a].
Qed.

End builder_claims.

(** ** The runner: claims *)

Section runner_claims.

Context {ext : Collaborators}.

Lemma lift_bind {A B} (r : result A) (f : A → io B) :
  (lift r ≫= f) = match r with Ok a => f a | Raise e => ([], Raise e) end.
Proof. destruct r as [a|e]; [|reflexivity]. cbn. by destruct (f a). Qed.

Lemma parse_hedge_fund_response_unparseable (response : string) (e : exception) :
  json_loads response = Raise e →
  parse_hedge_fund_response response = ([ErrorParsingResponse response], Ok VNone).
Proof. intros He. unfold parse_hedge_fund_response. by rewrite He. Qed.

(** C3: when the graph has run to a final state whose last message is not
    parseable ([json.loads] raises on its content), [run_hedge_fund] prints
    the parse error, does not raise, and returns [decision = None] with
    the [analyst_signals] of the final state. *)
Theorem run_hedge_fund_unparseable
    (app : option CompiledGraph) (ticker start_date end_date : string) (portfolio : value)
    (show_reasoning : bool) (selected_analysts : option (list string))
    (agent : CompiledGraph) (final_state : AgentState) (m : Message) (e : exception) :
  get_agent app selected_analysts = Ok agent →
  invoke agent (initial_state ticker start_date end_date portfolio show_reasoning)
    = Ok final_state →
  last (messages final_state) = Some m →
  json_loads (content m) = Raise e →
  run_hedge_fund app ticker start_date end_date portfolio show_reasoning selected_analysts =
    ([ErrorParsingResponse (content m)],
     Ok {| decision := VNone;
           result_analyst_signals := analyst_signals (data final_state) |}).
Proof.
  intros Hagent Hinvoke Hlast Hjson. unfold run_hedge_fund.
  rewrite lift_bind, Hagent, lift_bind, Hinvoke, lift_bind.
  unfold last_item. rewrite Hlast.
  by rewrite (parse_hedge_fund_response_unparseable _ e Hjson).
Qed.

(** C9: a call of [run_hedge_fund] with [selected_analysts = None] on the
    imported module, where no assignment to [app] has run, raises
    [NameError] for [app] before the graph is invoked and before anything
    is printed; the name is read in that branch only, and reading it
    succeeds once the [__main__] block has bound it. *)
Theorem run_hedge_fund_default_NameError
    (ticker start_date end_date : string) (portfolio : value) (show_reasoning : bool) :
  run_hedge_fund app_on_import ticker start_date end_date portfolio show_reasoning None =
    ([], Raise (NameError "app")) ∧
  (∀ sel, get_agent app_on_import (Some sel) = create_workflow (Some sel) ≫= compile) ∧
  (∀ a, get_agent (Some a) None = Ok a).
Proof.
  split; [|split].
  - unfold run_hedge_fund. by rewrite lift_bind.
  - intros sel. reflexivity.
  - intros a. reflexivity.
Qed.

End runner_claims.

(** C3 at an example: the sample engine answers plain text for [GOOG]. *)
Lemma run_hedge_fund_unparseable_witness :
  run_hedge_fund (ext := sample_collaborators) (Some {| builder := StateGraph.new |})
    "GOOG" "2024-02-15" "2024-05-15"
    (VDict [("cash", VFloat (100000 # 1)); ("stock", VInt 0)]) false None =
  ([ErrorParsingResponse "hold"],
   Ok {| decision := VNone;
         result_analyst_signals := [("technical_analyst_agent", VStr "bullish")] |}).
Proof.
  apply (run_hedge_fund_unparseable (ext := sample_collaborators)
           (Some {| builder := StateGraph.new |}) "GOOG"
           "2024-02-15" "2024-05-15" _ false None {| builder := StateGraph.new |}
           {| messages := [ {| content := "Make a trading decision based on the provided data." |};
                            {| content := "hold" |} ];
              data := {| ticker := "GOOG";
                         portfolio := VDict [("cash", VFloat (100000 # 1)); ("stock", VInt 0)];
                         start_date := "2024-02-15"; end_date := "2024-05-15";
                         analyst_signals := [("technical_analyst_agent", VStr "bullish")] |};
              show_reasoning := false |}
           {| content := "hold" |} (ValueError "Expecting value"));
    reflexivity.
Defined.

(** ** The ticker loop: claims *)

Section loop_claims.

Context {ext : Collaborators}.

Variables (app : option CompiledGraph) (base_portfolio : list (string * value))
  (positions : value) (start_date end_date : string) (show_reasoning : bool)
  (selected_analysts : option (list string)).

Local Abbreviation run t pf :=
  (run_hedge_fund app t start_date end_date pf show_reasoning selected_analysts).
Local Abbreviation try_ticker t pf :=
  (attempt app t start_date end_date pf show_reasoning selected_analysts).
Local Abbreviation events :=
  (ticker_events app base_portfolio positions start_date end_date show_reasoning
     selected_analysts).
Local Abbreviation loop :=
  (process_tickers app base_portfolio positions start_date end_date show_reasoning
     selected_analysts).

(** The guarded part never raises, and ends on a report: the trading
    output or the error line of the ticker. *)
Lemma attempt_reports (t : string) (pf : value) :
  ∃ l ev, try_ticker t pf = ((l ++ [ev])%list, Ok tt) ∧
    ((∃ r, ev = TradingOutput r) ∨ (∃ e, ev = ErrorProcessing t e)).
Proof.
  unfold attempt. destruct (run t pf) as [l [r|e]]; cbn.
  - destruct (print_trading_output r) as [[]|e]; cbn.
    + exists l, (TradingOutput r). split; [reflexivity|left; by exists r].
    + exists (l ++ [TradingOutput r])%list, (ErrorProcessing t e).
      split; [reflexivity|right; by exists e].
  - exists l, (ErrorProcessing t e). split; [reflexivity|right; by exists e].
Qed.

(** An exception of the run is caught and reported. *)
Lemma attempt_catches (t : string) (pf : value) (l : list event) (e : exception) :
  run t pf = (l, Raise e) →
  try_ticker t pf = ((l ++ [ErrorProcessing t e])%list, Ok tt).
Proof. intros Hrun. unfold attempt. by rewrite Hrun. Qed.

Lemma process_tickers_cons_ok (t : string) (rest : list string) (pf : value) :
  ticker_portfolio base_portfolio positions t = Ok pf →
  loop (t :: rest) = ((events t ++ (loop rest).1)%list, (loop rest).2).
Proof.
  intros Hpf. unfold ticker_events. cbn [process_tickers]. rewrite Hpf.
  destruct (loop rest) as [l' r]. cbn.
  destruct (attempt_reports t pf) as (l & ev & -> & _). reflexivity.
Qed.

Lemma process_tickers_cons_raise (t : string) (rest : list string) (e : exception) :
  ticker_portfolio base_portfolio positions t = Raise e →
  loop (t :: rest) = ([Analyzing t], Raise e).
Proof. intros Hpf. cbn [process_tickers]. by rewrite Hpf. Qed.

Lemma process_tickers_all_ok (tickers : list string) :
  Forall (λ t, is_Ok (ticker_portfolio base_portfolio positions t)) tickers →
  loop tickers = (concat (map events tickers), Ok tt).
Proof.
  induction tickers as [|t rest IH]; intros Hok; [reflexivity|].
  apply Forall_cons in Hok as [[pf Hpf] Hrest].
  rewrite (process_tickers_cons_ok _ _ _ Hpf), (IH Hrest). reflexivity.
Qed.

Lemma process_tickers_app (pre post : list string) :
  Forall (λ t, is_Ok (ticker_portfolio base_portfolio positions t)) pre →
  loop (pre ++ post) =
    ((concat (map events pre) ++ (loop post).1)%list, (loop post).2).
Proof.
  induction pre as [|t rest IH]; intros Hok.
  - cbn. by destruct (loop post).
  - apply Forall_cons in Hok as [[pf Hpf] Hrest]. rewrite <-app_comm_cons.
    rewrite (process_tickers_cons_ok _ _ _ Hpf), (IH Hrest). cbn.
    by rewrite app_assoc.
Qed.

(** C4: when the portfolio of every ticker can be built, the loop ends
    normally whatever happens in the runs; its output is, ticker after
    ticker in list order, the heading of the ticker followed by the
    output of its guarded run, which ends on the trading output or on the
    error line of that ticker; and a run that raises is reported by the
    error line, after which the loop goes on with the tickers that remain. *)
Theorem process_tickers_isolates_failures (tickers : list string) :
  Forall (λ t, is_Ok (ticker_portfolio base_portfolio positions t)) tickers →
  loop tickers = (concat (map events tickers), Ok tt) ∧
  Forall (λ t, ∃ l ev, events t = (Analyzing t :: l ++ [ev])%list ∧
            ((∃ r, ev = TradingOutput r) ∨ (∃ e, ev = ErrorProcessing t e))) tickers ∧
  (∀ pre t post pf l e,
     tickers = (pre ++ t :: post)%list →
     ticker_portfolio base_portfolio positions t = Ok pf →
     run t pf = (l, Raise e) →
     loop tickers =
       ((concat (map events pre) ++ (Analyzing t :: l ++ [ErrorProcessing t e])
           ++ concat (map events post))%list, Ok tt)).
Proof.
  intros Hok. split; [by apply process_tickers_all_ok|]. split.
  - eapply Forall_impl; [exact Hok|]. intros t [pf Hpf]. cbn beta.
    unfold ticker_events. rewrite Hpf.
    destruct (attempt_reports t pf) as (l & ev & -> & Hev). by exists l, ev.
  - intros pre t post pf l e -> Hpf Hrun.
    rewrite (process_tickers_all_ok _ Hok), map_app, concat_app.
    do 2 f_equal. cbn [map concat]. f_equal.
    unfold ticker_events. by rewrite Hpf, (attempt_catches _ _ _ _ Hrun).
Qed.

(** In the [--tickers] mode every listed ticker has its portfolio. *)
Lemma assoc_lookup_set {V} (k k' : string) (v : V) (d : list (string * V)) :
  assoc_lookup k' (assoc_set k v d) = if decide (k' = k) then Some v else assoc_lookup k' d.
Proof.
  induction d as [|[k0 v0] d IH]; cbn.
  - by repeat case_decide.
  - destruct (decide (k = k0)) as [->|Hne]; cbn.
    + by repeat case_decide.
    + rewrite IH. repeat case_decide; congruence.
Qed.

Lemma default_positions_lookup (tickers : list string) (t : string) :
  t ∈ tickers →
  value_getitem (default_positions tickers).1.1 t = Ok (VDict [("stock", VInt 0)]).
Proof.
  unfold default_positions. cbn [fst].
  assert (∀ d, (t ∈ tickers ∨ assoc_lookup t d = Some (VDict [("stock", VInt 0)])) →
    assoc_lookup t (foldl (λ d ticker, assoc_set ticker (VDict [("stock", VInt 0)]) d)
                      d tickers) = Some (VDict [("stock", VInt 0)])) as Hgen.
  { induction tickers as [|t0 rest IH]; intros d [Hin|Hd]; cbn [foldl].
    - by apply elem_of_nil in Hin.
    - exact Hd.
    - apply IH. rewrite assoc_lookup_set.
      apply elem_of_cons in Hin as [->|Hin]; [right; by case_decide|by left].
    - apply IH. right. rewrite assoc_lookup_set. by case_decide. }
  intros Hin. unfold value_getitem. by rewrite Hgen by (by left).
Qed.

(** C10: the portfolio of a ticker is built before the [try] statement.
    When the position entry of a ticker is not a mapping, the
    [AttributeError] of its [.get] leaves the loop: the output stops at
    the heading of that ticker and no later ticker is processed. *)
Theorem process_tickers_aborts_on_bad_position
    (pre post : list string) (t : string) (v : value) :
  Forall (λ t, is_Ok (ticker_portfolio base_portfolio positions t)) pre →
  value_getitem positions t = Ok v →
  (∀ d, v ≠ VDict d) →
  loop (pre ++ t :: post) =
    ((concat (map events pre) ++ [Analyzing t])%list, Raise (no_attribute v "get")).
Proof.
  intros Hpre Hv Hnodict.
  rewrite (process_tickers_app _ _ Hpre), (process_tickers_cons_raise _ _ (no_attribute v "get")).
  - reflexivity.
  - unfold ticker_portfolio. rewrite Hv. cbn.
    destruct v; try reflexivity. by destruct (Hnodict d).
Qed.

End loop_claims.

(** C4 at the example of the claim: with three tickers and a failure of
    the graph on the second, the first and the third are processed and
    reported. *)
Lemma process_tickers_isolates_failures_witness :
  process_tickers (ext := sample_collaborators) (Some {| builder := StateGraph.new |})
    [("cash", VFloat (100000 # 1))] (default_positions ["AAPL"; "MSFT"; "GOOG"]).1.1
    "2024-02-15" "2024-05-15" false None ["AAPL"; "MSFT"; "GOOG"] =
  ([Analyzing "AAPL";
    TradingOutput {| decision := VDict [];
                     result_analyst_signals := [("technical_analyst_agent", VStr "bullish")] |};
    Analyzing "MSFT";
    ErrorProcessing "MSFT" (OtherError "RuntimeError" "node failed");
    Analyzing "GOOG";
    ErrorParsingResponse "hold";
    TradingOutput {| decision := VNone;
                     result_analyst_signals := [("technical_analyst_agent", VStr "bullish")] |}],
   Ok tt).
Proof.
  rewrite (proj1 (process_tickers_isolates_failures (ext := sample_collaborators)
                    (Some {| builder := StateGraph.new |})
                    [("cash", VFloat (100000 # 1))]
                    (default_positions ["AAPL"; "MSFT"; "GOOG"]).1.1
                    "2024-02-15" "2024-05-15" false None ["AAPL"; "MSFT"; "GOOG"]
                    ltac:(repeat constructor; eexists; reflexivity))).
  reflexivity.
Defined.

(** C10 at an example: the entry of [MSFT] is a YAML null; [GOOG] is never
    reached. *)
Lemma process_tickers_aborts_on_bad_position_witness :
  process_tickers (ext := sample_collaborators) (Some {| builder := StateGraph.new |})
    [("cash", VInt 50000)]
    (VDict [("AAPL", VDict [("stock", VInt 10)]); ("MSFT", VNone); ("GOOG", VDict [])])
    "2024-02-15" "2024-05-15" false None ["AAPL"; "MSFT"; "GOOG"] =
  ([Analyzing "AAPL";
    TradingOutput {| decision := VDict [];
                     result_analyst_signals := [("technical_analyst_agent", VStr "bullish")] |};
    Analyzing "MSFT"],
   Raise (AttributeError "'NoneType' object has no attribute 'get'")).
Proof.
  change ["AAPL"; "MSFT"; "GOOG"] with (["AAPL"] ++ "MSFT" :: ["GOOG"])%list.
  rewrite (process_tickers_aborts_on_bad_position (ext := sample_collaborators)
             (Some {| builder := StateGraph.new |}) [("cash", VInt 50000)]
             (VDict [("AAPL", VDict [("stock", VInt 10)]); ("MSFT", VNone); ("GOOG", VDict [])])
             "2024-02-15" "2024-05-15" false None ["AAPL"] ["GOOG"] "MSFT" VNone).
  - reflexivity.
  - repeat constructor. eexists. reflexivity.
  - reflexivity.
  - discriminate.
Defined.

(** ** Configuration and dates: claims *)

Section config_claims.

(** C8: for a configuration document whose [portfolio] section, when
    present, and whose [positions] section are mappings, the base
    portfolio takes [portfolio.cash] when present and [100000.0] when
    missing, and the portfolio of a ticker whose position entry is a
    mapping takes the entry's [stock] when present and [0] when missing. *)
Theorem config_portfolio_defaults (cfg p ps : list (string * value)) :
  method_get (VDict cfg) "portfolio" (VDict []) = Ok (VDict p) →
  method_get (VDict cfg) "positions" (VDict []) = Ok (VDict ps) →
  let cash := from_option id (VFloat (100000 # 1)) (assoc_lookup "cash" p) in
  load_config (VDict cfg) = Ok (VDict ps, ps.*1, [("cash", cash)]) ∧
  (∀ c, assoc_lookup "cash" p = Some c → cash = c) ∧
  (assoc_lookup "cash" p = None → cash = VFloat (100000 # 1)) ∧
  ∀ t entry, assoc_lookup t ps = Some (VDict entry) →
    let stock := from_option id (VInt 0) (assoc_lookup "stock" entry) in
    ticker_portfolio [("cash", cash)] (VDict ps) t =
      Ok (VDict [("cash", cash); ("stock", stock)]) ∧
    (∀ s, assoc_lookup "stock" entry = Some s → stock = s) ∧
    (assoc_lookup "stock" entry = None → stock = VInt 0).
Proof.
  intros Hpf Hpos cash. split; [|split; [|split]].
  - unfold load_config. rewrite Hpos, bind_Ok. cbn [method_keys].
    rewrite bind_Ok, Hpf, bind_Ok. reflexivity.
  - intros c Hc. unfold cash. by rewrite Hc.
  - intros Hc. unfold cash. by rewrite Hc.
  - intros t entry Ht stock. split; [|split].
    + unfold ticker_portfolio, value_getitem. rewrite Ht, bind_Ok. reflexivity.
    + intros s Hs. unfold stock. by rewrite Hs.
    + intros Hs. unfold stock. by rewrite Hs.
Qed.

End config_claims.

(** C8 at the example of the spec: positions [{AAPL: {stock: 10}, MSFT: {}}]
    with [portfolio.cash: 50000]. *)
Lemma config_portfolio_defaults_witness :
  load_config sample_config =
    Ok (VDict [("AAPL", VDict [("stock", VInt 10)]); ("MSFT", VDict [])],
        ["AAPL"; "MSFT"], [("cash", VInt 50000)]) ∧
  ticker_portfolio [("cash", VInt 50000)]
      (VDict [("AAPL", VDict [("stock", VInt 10)]); ("MSFT", VDict [])]) "AAPL" =
    Ok (VDict [("cash", VInt 50000); ("stock", VInt 10)]) ∧
  ticker_portfolio [("cash", VInt 50000)]
      (VDict [("AAPL", VDict [("stock", VInt 10)]); ("MSFT", VDict [])]) "MSFT" =
    Ok (VDict [("cash", VInt 50000); ("stock", VInt 0)]).
Proof.
  destruct (config_portfolio_defaults
              [("portfolio", VDict [("cash", VInt 50000)]);
               ("positions", VDict [("AAPL", VDict [("stock", VInt 10)]); ("MSFT", VDict [])])]
              [("cash", VInt 50000)]
              [("AAPL", VDict [("stock", VInt 10)]); ("MSFT", VDict [])]
              eq_refl eq_refl) as (Hload & _ & _ & Hticker).
  split; [exact Hload|]. split.
  - exact (proj1 (Hticker "AAPL" [("stock", VInt 10)] eq_refl)).
  - exact (proj1 (Hticker "MSFT" [] eq_refl)).
Defined.

Section date_claims.

Context {ext : Collaborators}.

Lemma days_in_month_bounds (y m : Z) : (28 ≤ days_in_month y m ≤ 31)%Z.
Proof.
  unfold days_in_month.
  destruct (m =? 2)%Z; [destruct (isleap y); lia|].
  destruct ((m =? 4)%Z || (m =? 6)%Z || (m =? 9)%Z || (m =? 11)%Z); lia.
Qed.

(** The code's subtraction of three months agrees with the spec's words,
    from April of year 1 on. *)
Lemma datetime_sub_three_months (e : datetime) :
  valid_date e → (16 ≤ 12 * year e + month e)%Z →
  datetime_sub e (relativedelta_months 3) = Ok (three_calendar_months_before e) ∧
  valid_date (three_calendar_months_before e).
Proof.
  intros (Hy & Hm & Hd) Hlo.
  assert (∀ y m d, (1 ≤ y ≤ 9999 ∧ 1 ≤ m ≤ 12)%Z →
            d = Z.min (days_in_month y m) (day e) →
            datetime_replace y m d = Ok {| year := y; month := m; day := d |} ∧
            valid_date {| year := y; month := m; day := d |}) as Hrep.
  { intros y m d Hym ->. pose proof (days_in_month_bounds y m).
    assert (valid_date {| year := y; month := m;
                          day := Z.min (days_in_month y m) (day e) |}) as Hv.
    { unfold valid_date. cbn. lia. }
    split; [|exact Hv]. unfold datetime_replace. cbv zeta. by rewrite decide_True. }
  unfold datetime_sub, datetime_add, three_calendar_months_before.
  change (relativedelta_neg (relativedelta_months 3)) with {| rd_years := 0; rd_months := -3 |}.
  cbn [rd_years rd_months]. change (-3 =? 0)%Z with false. cbv iota.
  assert (∀ a b, Z.min a b = if (b <=? a)%Z then b else a) as Hmin.
  { intros a b. destruct (Z.leb_spec b a); lia. }
  destruct (Z.ltb_spec (month e + -3) 1) as [Hlt|Hge].
  - replace (month e + -3 >? 12)%Z with false by lia. cbv iota.
    assert ((12 * year e + (month e - 1) - 3) / 12 = year e + 0 - 1)%Z as -> by
      (symmetry; apply (Z.div_unique _ 12 _ (month e + 8)); lia).
    assert ((12 * year e + (month e - 1) - 3) mod 12 + 1 = month e + -3 + 12)%Z as -> by
      (rewrite <-(Z.mod_unique _ 12 (year e - 1) (month e + 8)); lia).
    rewrite <-Hmin. apply Hrep; [lia|reflexivity].
  - replace (month e + -3 >? 12)%Z with false by lia. cbv iota.
    assert ((12 * year e + (month e - 1) - 3) / 12 = year e + 0)%Z as -> by
      (symmetry; apply (Z.div_unique _ 12 _ (month e - 4)); lia).
    assert ((12 * year e + (month e - 1) - 3) mod 12 + 1 = month e + -3)%Z as -> by
      (rewrite <-(Z.mod_unique _ 12 (year e) (month e - 4)); lia).
    rewrite <-Hmin. apply Hrep; [lia|reflexivity].
Qed.

(** C5: when no start date is given, and the end date (given, or today's
    date as formatted) parses to a date [E] of the calendar not before
    April of year 1, the start date is [E] minus three calendar months:
    three months back in the count of months, on the same day of the
    month, or on the last day of that month when it is shorter. *)
Theorem resolve_dates_default_start (args : Args) (now E : datetime) :
  truthy (args_start_date args) = false →
  let end_date :=
    if truthy (args_end_date args) then from_option id EmptyString (args_end_date args)
    else strftime now in
  strptime end_date = Ok E → valid_date E → (16 ≤ 12 * year E + month E)%Z →
  resolve_dates args now = Ok (strftime (three_calendar_months_before E), end_date) ∧
  valid_date (three_calendar_months_before E) ∧
  (12 * year (three_calendar_months_before E) + month (three_calendar_months_before E)
     = 12 * year E + month E - 3)%Z.
Proof.
  intros Hstart end_date Hparse Hvalid Hlo.
  destruct (datetime_sub_three_months E Hvalid Hlo) as [Hsub Hv].
  split; [|split; [exact Hv|]].
  - unfold resolve_dates. rewrite Hstart. cbn [negb]. fold end_date.
    rewrite Hparse, bind_Ok, Hsub, bind_Ok. reflexivity.
  - unfold three_calendar_months_before. cbn [year month].
    pose proof (Z.div_mod (12 * year E + (month E - 1) - 3) 12). lia.
Qed.

End date_claims.

(** C5 at the first example of the claim. *)
Lemma resolve_dates_default_start_witness :
  resolve_dates (ext := sample_collaborators)
    {| args_tickers := Some ["AAPL"]; args_config := None; args_start_date := None;
       args_end_date := Some "2024-05-15"; args_show_reasoning := false |}
    {| year := 2026; month := 11; day := 4 |} =
  Ok ("2024-02-15", "2024-05-15").
Proof.
  destruct (resolve_dates_default_start (ext := sample_collaborators)
              {| args_tickers := Some ["AAPL"]; args_config := None; args_start_date := None;
                 args_end_date := Some "2024-05-15"; args_show_reasoning := false |}
              {| year := 2026; month := 11; day := 4 |}
              {| year := 2024; month := 5; day := 15 |}
              eq_refl eq_refl ltac:(by_compute) ltac:(cbn; lia)) as [Hres _].
  rewrite Hres. reflexivity.
Defined.

(** The second example of the claim, and two ends of month that the
    target month cannot hold. *)
Lemma three_months_before_examples :
  datetime_sub {| year := 2024; month := 1; day := 31 |} (relativedelta_months 3) =
    Ok {| year := 2023; month := 10; day := 31 |} ∧
  datetime_sub {| year := 2024; month := 5; day := 31 |} (relativedelta_months 3) =
    Ok {| year := 2024; month := 2; day := 29 |} ∧
  datetime_sub {| year := 2023; month := 5; day := 31 |} (relativedelta_months 3) =
    Ok {| year := 2023; month := 2; day := 28 |}.
Proof. repeat split; vm_compute; reflexivity. Qed.

(** ** Further properties of the built graph *)

Section graph_properties.

Import StateGraph.

Lemma node_rank_selected (S : list string) (n : string) (a : agent) :
  selected S n a → node_rank n = 2.
Proof.
  intros (HE & HS & Hst & Hr & Hp)%selected_other. unfold node_rank.
  by rewrite !decide_False.
Qed.

(** Every edge of a workflow leads to the next stage. *)
Lemma workflow_edge_rank (S : list string) (s d : string) :
  workflow_edge S s d → node_rank d = Datatypes.S (node_rank s).
Proof.
  intros [[-> ->]|[[-> [a H]]|[[-> [a H]]|[[-> ->]|[-> ->]]]]].
  - reflexivity.
  - by rewrite (node_rank_selected _ _ _ H).
  - by rewrite (node_rank_selected _ _ _ H).
  - reflexivity.
  - reflexivity.
Qed.

Lemma node_rank_le (n : string) : (node_rank n ≤ 5)%nat.
Proof. unfold node_rank. repeat case_decide; lia. Qed.

Section walks.

Variable E : gset (string * string).
Hypothesis Hrank : ∀ s d, (s, d) ∈ E → node_rank d = S (node_rank s).

Lemma walk_rank_lt (a : string) (q : list string) :
  is_walk E (a :: q) → Forall (λ x, (node_rank a < node_rank x)%nat) q.
Proof using Type*.
  revert a. induction q as [|b r IH]; intros a Hw; [constructor|].
  destruct Hw as [Hab Hw]. apply Hrank in Hab. constructor; [lia|].
  eapply Forall_impl; [exact (IH b Hw)|]. cbn beta. intros x Hx. lia.
Qed.

Lemma walk_tail (a : string) (q : list string) : is_walk E (a :: q) → is_walk E q.
Proof. destruct q as [|b r]; [done|]. by intros [_ H]. Qed.

Lemma walk_NoDup (p : list string) : is_walk E p → NoDup p.
Proof using Type*.
  induction p as [|a q IH]; intros Hw; [constructor|].
  constructor; [|exact (IH (walk_tail _ _ Hw))].
  intros Hin. pose proof (walk_rank_lt _ _ Hw) as Hlt.
  rewrite Forall_forall in Hlt. specialize (Hlt a Hin). lia.
Qed.

Lemma walk_length (a : string) (q : list string) :
  is_walk E (a :: q) → (length (a :: q) + node_rank a ≤ 6)%nat.
Proof using Type*.
  revert a. induction q as [|b r IH]; intros a Hw.
  - pose proof (node_rank_le a). cbn. lia.
  - destruct Hw as [Hab Hw]. apply Hrank in Hab. specialize (IH b Hw).
    cbn [length] in *. lia.
Qed.

End walks.

(** X1: the graph of a selection of pairwise distinct known keys has no
    cycle: a walk along its edges never meets a node twice, and has at
    most six nodes. *)
Theorem create_workflow_acyclic (S : list string) :
  NoDup S → Forall (λ k, k ∈ all_analysts) S →
  ∃ g, create_workflow (Some S) = Ok g ∧
    ∀ p, is_walk (edges g) p → NoDup p ∧ (length p ≤ 6)%nat.
Proof.
  intros Hnodup Hknown.
  destruct (create_workflow_spec S Hnodup Hknown) as (g & Hg & _ & _ & Hedges).
  exists g. split; [exact Hg|]. intros p Hw.
  assert (∀ s d, (s, d) ∈ edges g → node_rank d = Datatypes.S (node_rank s)) as Hrank.
  { intros s d Hsd%Hedges. by apply (workflow_edge_rank S). }
  split; [by apply (walk_NoDup (edges g))|].
  destruct p as [|a q]; [cbn; lia|].
  pose proof (walk_length (edges g) Hrank a q Hw). lia.
Qed.

(** X2: in the graph of a selection of pairwise distinct known keys, the
    node of every selected analyst has exactly one edge coming in, from
    [start_node], and exactly one edge going out, to
    [risk_management_agent]. *)
Theorem create_workflow_analyst_degree (S : list string) :
  NoDup S → Forall (λ k, k ∈ all_analysts) S →
  ∃ g, create_workflow (Some S) = Ok g ∧
    ∀ n a, selected S n a →
      (∀ s, (s, n) ∈ edges g ↔ s = "start_node") ∧
      (∀ d, (n, d) ∈ edges g ↔ d = "risk_management_agent").
Proof.
  intros Hnodup Hknown.
  destruct (create_workflow_spec S Hnodup Hknown) as (g & Hg & _ & _ & Hedges).
  exists g. split; [exact Hg|]. intros n a Hsel.
  pose proof (selected_other _ _ _ Hsel) as (HE & HS & Hst & Hr & Hp).
  split.
  - intros s. rewrite Hedges. split.
    + intros [[_ E]|[[E _]|[[E _]|[[_ E]|[_ E]]]]]; by subst.
    + intros ->. right. left. split; [reflexivity|by exists a].
  - intros d. rewrite Hedges. split.
    + apply (succ_selected S n d a Hsel).
    + intros ->. do 2 right. left. split; [reflexivity|by exists a].
Qed.

Lemma selected_Permutation (S S' : list string) (n : string) (a : agent) :
  S ≡ₚ S' → selected S n a → selected S' n a.
Proof. intros HP (k & Hk & Hl). exists k. split; [by rewrite <-HP|exact Hl]. Qed.

(** X3: the graph depends on the set of selected keys only, not on their
    order: two selections of pairwise distinct known keys that are
    permutations of each other give the same graph. *)
Theorem create_workflow_order_independent (S S' : list string) :
  NoDup S → Forall (λ k, k ∈ all_analysts) S → S ≡ₚ S' →
  is_Ok (create_workflow (Some S)) ∧
  create_workflow (Some S) = create_workflow (Some S').
Proof.
  intros Hnodup Hknown HP.
  assert (NoDup S') as Hnodup' by (by rewrite <-HP).
  assert (Forall (λ k, k ∈ all_analysts) S') as Hknown' by (by rewrite <-HP).
  destruct (create_workflow_spec S Hnodup Hknown) as (g & Hg & Hn & _ & He).
  destruct (create_workflow_spec S' Hnodup' Hknown') as (g' & Hg' & Hn' & _ & He').
  split; [by exists g|]. rewrite Hg, Hg'. f_equal.
  assert (∀ n a, selected S n a ↔ selected S' n a) as Hsel.
  { intros n a. split; apply selected_Permutation; [exact HP|by symmetry]. }
  destruct g as [ns es], g' as [ns' es']. cbn [nodes edges] in *. f_equal.
  - apply map_eq. intros n. apply option_eq. intros a.
    rewrite Hn, Hn'. unfold workflow_node. by rewrite Hsel.
  - apply set_eq. intros [s d]. rewrite He, He'. unfold workflow_edge.
    by setoid_rewrite Hsel.
Qed.

(** X4: the graph of a selection of pairwise distinct known keys has an
    execution path exactly when the selection is not empty, and then every
    node of the graph lies on an execution path. *)
Theorem create_workflow_paths_cover (S : list string) :
  NoDup S → Forall (λ k, k ∈ all_analysts) S →
  ∃ g, create_workflow (Some S) = Ok g ∧
    ((∃ p, execution_path g p) ↔ S ≠ []) ∧
    (S ≠ [] → ∀ n, is_Some (nodes g !! n) → ∃ p, execution_path g p ∧ n ∈ p).
Proof.
  intros Hnodup Hknown.
  destruct (create_workflow_spec S Hnodup Hknown) as (g & Hg & Hnodes & _ & Hedges).
  exists g. split; [exact Hg|].
  assert (S ≠ [] → ∃ n a, selected S n a) as Hfirst.
  { destruct S as [|k S']; [by intros []|]. intros _.
    apply Forall_cons in Hknown as [[[n a] Hk]%analyst_nodes_known _].
    exists n, a. apply selected_cons. by left. }
  assert (∀ n a, selected S n a →
            execution_path g [START; "start_node"; n; "risk_management_agent";
                              "portfolio_management_agent"; END]) as Hpath.
  { intros n a Hsel. apply (workflow_paths S g _ Hedges). by exists n, a. }
  split; [split|].
  - intros [p (n & a & (k & Hk & _) & _)%(workflow_paths S g p Hedges)].
    intros ->. by apply elem_of_nil in Hk.
  - intros (n & a & Hsel)%Hfirst. eexists. by apply (Hpath n a).
  - intros Hne n [b Hb].
    apply Hnodes in Hb as [[-> _]|[[-> _]|[[-> _]|Hsel]]].
    + destruct (Hfirst Hne) as (n' & a' & Hsel). eexists. split; [by apply (Hpath n' a')|].
      apply list_elem_of_further, list_elem_of_here.
    + destruct (Hfirst Hne) as (n' & a' & Hsel). eexists. split; [by apply (Hpath n' a')|].
      do 3 apply list_elem_of_further. apply list_elem_of_here.
    + destruct (Hfirst Hne) as (n' & a' & Hsel). eexists. split; [by apply (Hpath n' a')|].
      do 4 apply list_elem_of_further. apply list_elem_of_here.
    + eexists. split; [by apply (Hpath n b)|].
      do 2 apply list_elem_of_further. apply list_elem_of_here.
Qed.

End graph_properties.

Lemma create_workflow_acyclic_witness :
  ∃ g, create_workflow (Some ["sentiment_analyst"; "technical_analyst"]) = Ok g ∧
    ∀ p, is_walk (StateGraph.edges g) p → NoDup p ∧ (length p ≤ 6)%nat.
Proof. apply create_workflow_acyclic; by_compute. Defined.

Lemma create_workflow_analyst_degree_witness :
  ∃ g, create_workflow (Some ["valuation_analyst"; "fundamentals_analyst"]) = Ok g ∧
    ∀ n a, selected ["valuation_analyst"; "fundamentals_analyst"] n a →
      (∀ s, (s, n) ∈ StateGraph.edges g ↔ s = "start_node") ∧
      (∀ d, (n, d) ∈ StateGraph.edges g ↔ d = "risk_management_agent").
Proof. apply create_workflow_analyst_degree; by_compute. Defined.

Lemma create_workflow_order_independent_witness :
  is_Ok (create_workflow (Some ["technical_analyst"; "sentiment_analyst"])) ∧
  create_workflow (Some ["technical_analyst"; "sentiment_analyst"]) =
  create_workflow (Some ["sentiment_analyst"; "technical_analyst"]).
Proof.
  apply create_workflow_order_independent; [by_compute|by_compute|].
  apply perm_swap.
Defined.

Lemma create_workflow_paths_cover_witness :
  ∃ g, create_workflow (Some ["fundamentals_analyst"]) = Ok g ∧
    ((∃ p, execution_path g p) ↔ ["fundamentals_analyst"] ≠ []) ∧
    (["fundamentals_analyst"] ≠ [] →
     ∀ n, is_Some (StateGraph.nodes g !! n) → ∃ p, execution_path g p ∧ n ∈ p).
Proof. apply create_workflow_paths_cover; by_compute. Defined.

Section selection_properties.

Import StateGraph.

(** X5: whatever the prompt answers with pairwise distinct known keys, or
    with nothing, the script never hands an empty selection to
    [create_workflow], and the graph is built with at least one analyst
    node beside the three fixed nodes. *)
Theorem select_analysts_builds (choices : option (list string)) :
  (∀ l, choices = Some l → NoDup l ∧ Forall (λ k, k ∈ all_analysts) l) →
  ∃ out sel g, select_analysts choices = (out, Ok sel) ∧ sel ≠ Some [] ∧
    create_workflow sel = Ok g ∧ (4 ≤ size (nodes g))%nat.
Proof.
  intros Hchoices.
  assert (∀ S, S ≠ [] → NoDup S → Forall (λ k, k ∈ all_analysts) S →
            ∃ g, create_workflow (Some S) = Ok g ∧ (4 ≤ size (nodes g))%nat) as Hbuild.
  { intros S Hne Hnodup Hknown.
    destruct (create_workflow_spec S Hnodup Hknown) as (g & Hg & _ & Hsize & _).
    exists g. split; [exact Hg|]. destruct S; [by destruct Hne|]. cbn [length] in Hsize. lia. }
  destruct (Hbuild all_analysts) as (gall & Hgall & Hsall);
    [discriminate|apply all_analysts_NoDup|apply all_analysts_known|].
  destruct choices as [[|k l]|].
  - exists [UsingAllAnalysts], None, gall. by repeat split.
  - destruct (Hchoices (k :: l) eq_refl) as [Hnodup Hknown].
    destruct (Hbuild (k :: l)) as (g & Hg & Hs); [discriminate|done|done|].
    exists [SelectedAnalysts (k :: l)], (Some (k :: l)), g. by repeat split.
  - exists [UsingAllAnalysts], None, gall. by repeat split.
Qed.

End selection_properties.

Lemma select_analysts_builds_witness :
  ∃ out sel g,
    select_analysts (Some ["fundamentals_analyst"; "valuation_analyst"]) = (out, Ok sel) ∧
    sel ≠ Some [] ∧ create_workflow sel = Ok g ∧ (4 ≤ size (StateGraph.nodes g))%nat.
Proof.
  apply select_analysts_builds. intros l [= <-]. split; by_compute.
Defined.

(** ** Further properties of the runner *)

Section runner_properties.

Context {ext : Collaborators}.

Variables (app : option CompiledGraph) (ticker start_date end_date : string)
  (portfolio : value) (show_reasoning : bool).

(** X6: when the graph has run and the content of the last message
    parses, [run_hedge_fund] prints nothing and returns the parsed value
    as the decision, with the [analyst_signals] of the final state. *)
Theorem run_hedge_fund_parsed (selected_analysts : option (list string))
    (agent : CompiledGraph) (final_state : AgentState) (m : Message) (v : value) :
  get_agent app selected_analysts = Ok agent →
  invoke agent (initial_state ticker start_date end_date portfolio show_reasoning)
    = Ok final_state →
  last (messages final_state) = Some m →
  json_loads (content m) = Ok v →
  run_hedge_fund app ticker start_date end_date portfolio show_reasoning selected_analysts =
    ([], Ok {| decision := v;
               result_analyst_signals := analyst_signals (data final_state) |}).
Proof.
  intros Hagent Hinvoke Hlast Hjson. unfold run_hedge_fund.
  rewrite lift_bind, Hagent, lift_bind, Hinvoke, lift_bind.
  unfold last_item, parse_hedge_fund_response. by rewrite Hlast, Hjson.
Qed.

(** X7: [run_hedge_fund] raises in three cases only: the agent cannot be
    obtained, the graph engine raises, or the final state has no message;
    a parse failure never makes it raise. A run that raises has printed
    nothing. *)
Theorem run_hedge_fund_raises_only (selected_analysts : option (list string))
    (l : list event) (e : exception) :
  run_hedge_fund app ticker start_date end_date portfolio show_reasoning selected_analysts =
    (l, Raise e) →
  l = [] ∧
  (get_agent app selected_analysts = Raise e ∨
   ∃ agent, get_agent app selected_analysts = Ok agent ∧
     (invoke agent (initial_state ticker start_date end_date portfolio show_reasoning)
        = Raise e ∨
      ∃ final_state,
        invoke agent (initial_state ticker start_date end_date portfolio show_reasoning)
          = Ok final_state ∧
        messages final_state = [] ∧ e = IndexError "list index out of range")).
Proof.
  unfold run_hedge_fund. rewrite lift_bind.
  destruct (get_agent app selected_analysts) as [agent|e0].
  - rewrite lift_bind.
    destruct (invoke agent _) as [final_state|e1] eqn:Hinvoke.
    + rewrite lift_bind. unfold last_item.
      destruct (last (messages final_state)) as [m|] eqn:Hlast.
      * unfold parse_hedge_fund_response.
        destruct (json_loads (content m)); intros [= _ ?].
      * intros [= <- <-]. split; [reflexivity|]. right. exists agent.
        split; [reflexivity|]. right. exists final_state. split; [exact Hinvoke|].
        split; [by apply last_None|reflexivity].
    + intros [= <- <-]. split; [reflexivity|]. right. exists agent.
      split; [reflexivity|by left].
  - intros [= <- <-]. split; [reflexivity|by left].
Qed.

(** X8: a final state without any message makes [run_hedge_fund] raise
    [IndexError] at [final_state["messages"][-1]]. *)
Theorem run_hedge_fund_no_message (selected_analysts : option (list string))
    (agent : CompiledGraph) (final_state : AgentState) :
  get_agent app selected_analysts = Ok agent →
  invoke agent (initial_state ticker start_date end_date portfolio show_reasoning)
    = Ok final_state →
  messages final_state = [] →
  run_hedge_fund app ticker start_date end_date portfolio show_reasoning selected_analysts =
    ([], Raise (IndexError "list index out of range")).
Proof.
  intros Hagent Hinvoke Hmsg. unfold run_hedge_fund.
  rewrite lift_bind, Hagent, lift_bind, Hinvoke, lift_bind.
  unfold last_item. by rewrite Hmsg.
Qed.

(** X9: with a selection of pairwise distinct keys that holds an unknown
    key, [run_hedge_fund] raises the [KeyError] of an unknown key while
    building the workflow: nothing is compiled, invoked or printed,
    whatever the collaborators and the binding of [app]. *)
Theorem run_hedge_fund_unknown_key (sel : list string) :
  NoDup sel → (∃ k, k ∈ sel ∧ k ∉ all_analysts) →
  ∃ k, k ∈ sel ∧ (k ∉ all_analysts) ∧
    run_hedge_fund app ticker start_date end_date portfolio show_reasoning (Some sel) =
      ([], Raise (KeyError k)).
Proof.
  intros Hnodup Hunk.
  destruct (add_selected_nodes_unknown_nodup sel
              (StateGraph.mk (<["start_node":=start]> ∅) ∅) Hunk Hnodup)
    as (k & Hin & Hk & Hraise).
  { intros n a. apply start_graph_fresh. }
  exists k. split; [exact Hin|]. split; [exact Hk|].
  unfold run_hedge_fund, get_agent.
  by rewrite lift_bind, create_workflow_unfold, Hraise.
Qed.

End runner_properties.

Lemma run_hedge_fund_parsed_witness :
  run_hedge_fund (ext := sample_collaborators) (Some {| builder := StateGraph.new |})
    "AAPL" "2024-02-15" "2024-05-15" (VDict [("cash", VInt 50000); ("stock", VInt 10)])
    true None =
  ([], Ok {| decision := VDict [];
             result_analyst_signals := [("technical_analyst_agent", VStr "bullish")] |}).
Proof.
  apply (run_hedge_fund_parsed (ext := sample_collaborators)
           (Some {| builder := StateGraph.new |}) "AAPL" "2024-02-15" "2024-05-15"
           (VDict [("cash", VInt 50000); ("stock", VInt 10)]) true None
           {| builder := StateGraph.new |}
           {| messages := [ {| content := "Make a trading decision based on the provided data." |};
                            {| content := "{}" |} ];
              data := {| ticker := "AAPL";
                         portfolio := VDict [("cash", VInt 50000); ("stock", VInt 10)];
                         start_date := "2024-02-15"; end_date := "2024-05-15";
                         analyst_signals := [("technical_analyst_agent", VStr "bullish")] |};
              show_reasoning := true |}
           {| content := "{}" |} (VDict []));
    reflexivity.
Defined.

Lemma run_hedge_fund_raises_only_witness :
  ([] : list event) = [] ∧
  (get_agent (ext := sample_collaborators) (Some {| builder := StateGraph.new |}) None
     = Raise (OtherError "RuntimeError" "node failed") ∨
   ∃ agent, get_agent (ext := sample_collaborators) (Some {| builder := StateGraph.new |}) None
              = Ok agent ∧
     (invoke (Collaborators := sample_collaborators) agent
        (initial_state "MSFT" "2024-02-15" "2024-05-15" VNone false)
        = Raise (OtherError "RuntimeError" "node failed") ∨
      ∃ final_state,
        invoke (Collaborators := sample_collaborators) agent
          (initial_state "MSFT" "2024-02-15" "2024-05-15" VNone false) = Ok final_state ∧
        messages final_state = [] ∧
        OtherError "RuntimeError" "node failed" = IndexError "list index out of range")).
Proof.
  apply (run_hedge_fund_raises_only (ext := sample_collaborators)
           (Some {| builder := StateGraph.new |}) "MSFT" "2024-02-15" "2024-05-15"
           VNone false None [] (OtherError "RuntimeError" "node failed")).
  reflexivity.
Defined.

Lemma run_hedge_fund_no_message_witness :
  run_hedge_fund
    (ext := with_invoke sample_collaborators
              (λ _ st, Ok {| messages := []; data := data st;
                             show_reasoning := show_reasoning st |}))
    (Some {| builder := StateGraph.new |}) "AAPL" "2024-02-15" "2024-05-15" VNone false None =
  ([], Raise (IndexError "list index out of range")).
Proof.
  apply (run_hedge_fund_no_message
           (ext := with_invoke sample_collaborators
                     (λ _ st, Ok {| messages := []; data := data st;
                                    show_reasoning := show_reasoning st |}))
           (Some {| builder := StateGraph.new |}) "AAPL" "2024-02-15" "2024-05-15" VNone false
           None {| builder := StateGraph.new |}
           {| messages := [];
              data := data (initial_state "AAPL" "2024-02-15" "2024-05-15" VNone false);
              show_reasoning := false |});
    reflexivity.
Defined.

Lemma run_hedge_fund_unknown_key_witness :
  ∃ k, k ∈ ["technical_analyst"; "macro_analyst"] ∧ (k ∉ all_analysts) ∧
    run_hedge_fund (ext := sample_collaborators) None "AAPL" "2024-02-15" "2024-05-15"
      VNone false (Some ["technical_analyst"; "macro_analyst"]) =
      ([], Raise (KeyError k)).
Proof.
  apply (run_hedge_fund_unknown_key (ext := sample_collaborators)).
  - by_compute.
  - exists "macro_analyst". split; by_compute.
Defined.

(** ** Further properties of the configuration and of the loop *)

Section config_properties.

Lemma assoc_lookup_keys {V} (t : string) (d : list (string * V)) :
  t ∈ d.*1 → is_Some (assoc_lookup t d).
Proof.
  induction d as [|[k v] d IH]; cbn.
  - by intros ?%elem_of_nil.
  - intros [->|Hin]%elem_of_cons; case_decide; eauto; congruence.
Qed.

(** X10: when the configuration loads, the document is a mapping, the
    positions are its [positions] section (the empty mapping when the
    section is absent), the tickers are the keys of that section in
    document order, and the base portfolio holds the cash of its
    [portfolio] section ([100000.0] when absent); every ticker has its
    entry in the positions, so [positions[ticker]] in the loop cannot
    raise [KeyError]. *)
Theorem load_config_tickers (config positions : value) (tickers : list string)
    (base_portfolio : list (string * value)) :
  load_config config = Ok (positions, tickers, base_portfolio) →
  ∃ d ps p, config = VDict d ∧
    from_option id (VDict []) (assoc_lookup "positions" d) = VDict ps ∧
    positions = VDict ps ∧ tickers = ps.*1 ∧
    from_option id (VDict []) (assoc_lookup "portfolio" d) = VDict p ∧
    base_portfolio =
      [("cash", from_option id (VFloat (100000 # 1)) (assoc_lookup "cash" p))] ∧
    ∀ t, t ∈ tickers →
      ∃ v, assoc_lookup t ps = Some v ∧ value_getitem positions t = Ok v.
Proof.
  intros Hload. destruct config as [| | | | | |d]; try discriminate Hload.
  unfold load_config in Hload. cbn [method_get] in Hload. rewrite bind_Ok in Hload.
  destruct (from_option id (VDict []) (assoc_lookup "positions" d))
    as [| | | | | |ps] eqn:Hpos; try discriminate Hload.
  cbn [method_keys] in Hload. rewrite !bind_Ok in Hload.
  destruct (from_option id (VDict []) (assoc_lookup "portfolio" d))
    as [| | | | | |p] eqn:Hpf; try discriminate Hload.
  cbn [method_get] in Hload. rewrite bind_Ok in Hload.
  change (mret ?x) with (Ok x) in Hload. injection Hload as <- <- <-.
  exists d, ps, p. repeat split; try reflexivity; try assumption.
  intros t [v Hv]%assoc_lookup_keys. exists v. split; [exact Hv|].
  unfold value_getitem. by rewrite Hv.
Qed.

(** X11: loading succeeds exactly when the document is a mapping whose
    [positions] and [portfolio] sections are each absent or a mapping;
    every failure is an [AttributeError] (an empty file, which loads as
    [None], is one). *)
Theorem load_config_succeeds_iff (config : value) :
  (is_Ok (load_config config) ↔
     ∃ d, config = VDict d ∧
       (assoc_lookup "positions" d = None ∨
        ∃ ps, assoc_lookup "positions" d = Some (VDict ps)) ∧
       (assoc_lookup "portfolio" d = None ∨
        ∃ p, assoc_lookup "portfolio" d = Some (VDict p))) ∧
  (∀ e, load_config config = Raise e → exc_class e = "AttributeError").
Proof.
  destruct config as [| | | | | |d];
    try (split; [split; [intros [x [=]]|intros (d & [=] & _)]|intros e [= <-]; reflexivity]).
  unfold load_config. cbn [method_get]. rewrite bind_Ok.
  destruct (assoc_lookup "positions" d) as [[| | | | | |ps]|] eqn:Hpos; cbn [from_option id];
    try (split; [split; [intros [x [=]]|intros (d' & [= <-] & [Hx|[dx Hx]] & _); congruence]
               |intros e [= <-]; reflexivity]).
  - cbn [method_keys]. rewrite bind_Ok.
    destruct (assoc_lookup "portfolio" d) as [[| | | | | |p]|] eqn:Hpf; cbn [from_option id];
      try (split; [split; [intros [x [=]]|intros (d' & [= <-] & _ & [Hx|[dx Hx]]); congruence]
                 |intros e [= <-]; reflexivity]).
    + split; [|intros e [=]]. split; [|intros _; by eexists].
      intros _. exists d. split; [reflexivity|]. split; right; eauto.
    + split; [|intros e [=]]. split; [|intros _; by eexists].
      intros _. exists d. split; [reflexivity|]. split; [right; eauto|by left].
  - cbn [method_keys]. rewrite bind_Ok.
    destruct (assoc_lookup "portfolio" d) as [[| | | | | |p]|] eqn:Hpf; cbn [from_option id];
      try (split; [split; [intros [x [=]]|intros (d' & [= <-] & _ & [Hx|[dx Hx]]); congruence]
                 |intros e [= <-]; reflexivity]).
    + split; [|intros e [=]]. split; [|intros _; by eexists].
      intros _. exists d. split; [reflexivity|]. split; [by left|right; eauto].
    + split; [|intros e [=]]. split; [|intros _; by eexists].
      intros _. exists d. split; [reflexivity|]. split; by left.
Qed.

(** X12: the portfolio of a ticker holds the ticker's stock under
    [stock] and, under every other key, what the base portfolio holds:
    the cash is never changed by the loop. *)
Theorem ticker_portfolio_keeps_base (base_portfolio : list (string * value))
    (positions : value) (t : string) (pf : value) :
  ticker_portfolio base_portfolio positions t = Ok pf →
  ∃ d position stock,
    pf = VDict d ∧ value_getitem positions t = Ok position ∧
    method_get position "stock" (VInt 0) = Ok stock ∧
    assoc_lookup "stock" d = Some stock ∧
    ∀ k, k ≠ "stock" → assoc_lookup k d = assoc_lookup k base_portfolio.
Proof.
  unfold ticker_portfolio. intros Hpf.
  destruct (value_getitem positions t) as [position|e]; [|discriminate Hpf].
  rewrite bind_Ok in Hpf.
  destruct (method_get position "stock" (VInt 0)) as [stock|e] eqn:Hstock;
    [|discriminate Hpf].
  rewrite bind_Ok in Hpf. injection Hpf as <-.
  exists (assoc_set "stock" stock base_portfolio), position, stock.
  split; [reflexivity|]. split; [reflexivity|]. split; [exact Hstock|]. split.
  - rewrite assoc_lookup_set. by rewrite decide_True.
  - intros k Hk. rewrite assoc_lookup_set. by rewrite decide_False.
Qed.

End config_properties.

Lemma load_config_tickers_witness :
  ∃ d ps p, sample_config = VDict d ∧
    from_option id (VDict []) (assoc_lookup "positions" d) = VDict ps ∧
    VDict [("AAPL", VDict [("stock", VInt 10)]); ("MSFT", VDict [])] = VDict ps ∧
    ["AAPL"; "MSFT"] = ps.*1 ∧
    from_option id (VDict []) (assoc_lookup "portfolio" d) = VDict p ∧
    [("cash", VInt 50000)] =
      [("cash", from_option id (VFloat (100000 # 1)) (assoc_lookup "cash" p))] ∧
    ∀ t, t ∈ ["AAPL"; "MSFT"] →
      ∃ v, assoc_lookup t ps = Some v ∧
        value_getitem (VDict [("AAPL", VDict [("stock", VInt 10)]); ("MSFT", VDict [])]) t
          = Ok v.
Proof.
  apply (load_config_tickers sample_config _ _ [("cash", VInt 50000)]). reflexivity.
Defined.

Lemma ticker_portfolio_keeps_base_witness :
  ∃ d position stock,
    VDict [("cash", VInt 50000); ("stock", VInt 10)] = VDict d ∧
    value_getitem (VDict [("AAPL", VDict [("stock", VInt 10)]); ("MSFT", VDict [])]) "AAPL"
      = Ok position ∧
    method_get position "stock" (VInt 0) = Ok stock ∧
    assoc_lookup "stock" d = Some stock ∧
    ∀ k, k ≠ "stock" → assoc_lookup k d = assoc_lookup k [("cash", VInt 50000)].
Proof.
  apply (ticker_portfolio_keeps_base [("cash", VInt 50000)]
           (VDict [("AAPL", VDict [("stock", VInt 10)]); ("MSFT", VDict [])]) "AAPL").
  reflexivity.
Defined.

Section loop_properties.

Context {ext : Collaborators}.

Variables (base_portfolio : list (string * value)) (positions : value)
  (start_date end_date : string) (show_reasoning : bool).

(** X13: in the [--tickers] mode every listed ticker, repeated or not,
    gets the portfolio [{cash: 100000.0, stock: 0}], and the loop ends
    normally after the output of every ticker in list order, whatever the
    runs do. *)
Theorem process_tickers_default_positions (app : option CompiledGraph)
    (selected_analysts : option (list string)) (tickers : list string) :
  let positions := (default_positions tickers).1.1 in
  let base_portfolio := (default_positions tickers).2 in
  (∀ t, t ∈ tickers →
     ticker_portfolio base_portfolio positions t =
       Ok (VDict [("cash", VFloat (100000 # 1)); ("stock", VInt 0)])) ∧
  process_tickers app base_portfolio positions start_date end_date show_reasoning
      selected_analysts tickers =
    (concat (map (ticker_events app base_portfolio positions start_date end_date
                    show_reasoning selected_analysts) tickers), Ok tt).
Proof.
  intros pos base.
  assert (∀ t, t ∈ tickers →
            ticker_portfolio base pos t =
              Ok (VDict [("cash", VFloat (100000 # 1)); ("stock", VInt 0)])) as Hpf.
  { intros t Hin. unfold ticker_portfolio, pos.
    by rewrite (default_positions_lookup tickers t Hin). }
  split; [exact Hpf|]. apply process_tickers_all_ok.
  apply Forall_forall. intros t Hin. eexists. by apply Hpf.
Qed.

(** X14: when analysts were selected, the loop does not use the graph the
    script compiled: every run builds and compiles its own workflow, and
    the outcome is the same whatever [app] is bound to. *)
Theorem process_tickers_selection_ignores_app (app app' : option CompiledGraph)
    (sel : list string) (tickers : list string) :
  process_tickers app base_portfolio positions start_date end_date show_reasoning
    (Some sel) tickers =
  process_tickers app' base_portfolio positions start_date end_date show_reasoning
    (Some sel) tickers.
Proof.
  induction tickers as [|t rest IH]; [reflexivity|].
  cbn [process_tickers]. rewrite IH. reflexivity.
Qed.

(** X15: an exception of the output printer is caught like one of the
    run: the error line of the ticker follows the call of the printer and
    the guarded part ends normally. *)
Theorem attempt_catches_printer (app : option CompiledGraph)
    (selected_analysts : option (list string)) (t : string) (pf : value)
    (l : list event) (r : RunResult) (e : exception) :
  run_hedge_fund app t start_date end_date pf show_reasoning selected_analysts = (l, Ok r) →
  print_trading_output r = Raise e →
  attempt app t start_date end_date pf show_reasoning selected_analysts =
    ((l ++ [TradingOutput r; ErrorProcessing t e])%list, Ok tt).
Proof.
  intros Hrun Hprint. unfold attempt. rewrite Hrun. cbn. rewrite Hprint. cbn.
  by rewrite <-app_assoc.
Qed.

End loop_properties.

Lemma attempt_catches_printer_witness :
  attempt (ext := with_printer sample_collaborators
                    (λ _, Raise (OtherError "BrokenPipeError" "stdout closed")))
    (Some {| builder := StateGraph.new |}) "AAPL" "2024-02-15" "2024-05-15"
    (VDict [("cash", VInt 50000); ("stock", VInt 10)]) false None =
  ([TradingOutput {| decision := VDict [];
                     result_analyst_signals := [("technical_analyst_agent", VStr "bullish")] |};
    ErrorProcessing "AAPL" (OtherError "BrokenPipeError" "stdout closed")], Ok tt).
Proof.
  apply (attempt_catches_printer
           (ext := with_printer sample_collaborators
                     (λ _, Raise (OtherError "BrokenPipeError" "stdout closed")))
           "2024-02-15" "2024-05-15" false (Some {| builder := StateGraph.new |}) None
           "AAPL" (VDict [("cash", VInt 50000); ("stock", VInt 10)]) []
           {| decision := VDict [];
              result_analyst_signals := [("technical_analyst_agent", VStr "bullish")] |}
           (OtherError "BrokenPipeError" "stdout closed"));
    reflexivity.
Defined.

(** ** Properties of the whole script *)

Section main_properties.

Context {ext : Collaborators}.

Lemma io_bind_Ok {A B} (l : list event) (a : A) (f : A → io B) :
  ((l, Ok a) ≫= f) = ((l ++ (f a).1)%list, (f a).2).
Proof. cbn. by destruct (f a). Qed.

(** A run prints parse errors only. *)
Lemma run_hedge_fund_events (app : option CompiledGraph)
    (ticker start_date end_date : string) (portfolio : value) (show_reasoning : bool)
    (selected_analysts : option (list string)) (ev : event) :
  ev ∈ (run_hedge_fund app ticker start_date end_date portfolio show_reasoning
          selected_analysts).1 →
  ∃ response, ev = ErrorParsingResponse response.
Proof.
  unfold run_hedge_fund. rewrite lift_bind.
  destruct (get_agent app selected_analysts) as [agent|e0];
    [|by intros ?%elem_of_nil].
  rewrite lift_bind. destruct (invoke agent _) as [final_state|e1];
    [|by intros ?%elem_of_nil].
  rewrite lift_bind. destruct (last_item (messages final_state)) as [m|e2];
    [|by intros ?%elem_of_nil].
  unfold parse_hedge_fund_response. destruct (json_loads (content m)); cbn.
  - by intros ?%elem_of_nil.
  - intros ->%list_elem_of_singleton. by eexists.
Qed.

Lemma attempt_no_heading (app : option CompiledGraph)
    (ticker start_date end_date : string) (portfolio : value) (show_reasoning : bool)
    (selected_analysts : option (list string)) (ev : event) :
  ev ∈ (attempt app ticker start_date end_date portfolio show_reasoning
          selected_analysts).1 →
  ¬ is_heading ev.
Proof.
  unfold attempt. intros Hin [t ->].
  pose proof (run_hedge_fund_events app ticker start_date end_date portfolio
                show_reasoning selected_analysts (Analyzing t)) as Hrun.
  destruct (run_hedge_fund app ticker start_date end_date portfolio show_reasoning
              selected_analysts) as [l [r|e]]; cbn in Hin, Hrun.
  - destruct (print_trading_output r) as [[]|e]; cbn in Hin;
      rewrite ?elem_of_app, ?elem_of_cons, ?elem_of_nil in Hin;
      repeat match goal with H : _ ∨ _ |- _ => destruct H as [H|H] end;
      try discriminate; try contradiction;
      match goal with H : _ ∈ l |- _ => by destruct (Hrun H) as [? [=]] end.
  - rewrite elem_of_app, list_elem_of_singleton in Hin.
    destruct Hin as [Hin|[=]]. by destruct (Hrun Hin) as [? [=]].
Qed.

(** The headings of the loop are those of its tickers. *)
Lemma process_tickers_headings (app : option CompiledGraph)
    (base_portfolio : list (string * value)) (positions : value)
    (start_date end_date : string) (show_reasoning : bool)
    (selected_analysts : option (list string)) (tickers : list string) (t : string) :
  Analyzing t ∈ (process_tickers app base_portfolio positions start_date end_date
                   show_reasoning selected_analysts tickers).1 →
  t ∈ tickers.
Proof.
  induction tickers as [|t0 rest IH]; [by intros ?%elem_of_nil|].
  destruct (ticker_portfolio base_portfolio positions t0) as [pf|e] eqn:Hpf.
  - rewrite (process_tickers_cons_ok _ _ _ _ _ _ _ _ _ _ Hpf). cbn [fst].
    unfold ticker_events. rewrite Hpf.
    rewrite elem_of_app, elem_of_cons.
    intros [[[= ->]|Hin]|Hin].
    + by left.
    + apply attempt_no_heading in Hin. destruct Hin. by exists t.
    + right. by apply IH.
  - rewrite (process_tickers_cons_raise _ _ _ _ _ _ _ _ _ _ Hpf). cbn [fst].
    intros [= ->]%list_elem_of_singleton. by left.
Qed.

Lemma select_analysts_total (choices : option (list string)) :
  ∃ out sel, select_analysts choices = (out, Ok sel) ∧ Forall (λ ev, ¬ is_heading ev) out.
Proof.
  destruct choices as [[|k l]|]; eexists _, _; (split; [reflexivity|]);
    repeat constructor; by intros [t [=]].
Qed.

(** X16: the script fails fast. A ticker is announced only when it is one
    of the resolved tickers and every step before the loop succeeded:
    resolving the positions, building and compiling the workflow,
    validating both date arguments and setting the dates. *)
Theorem main_announces_after_setup (args : Args) (choices : option (list string))
    (now : datetime) (t : string) :
  Analyzing t ∈ (main args choices now).1 →
  ∃ positions tickers base_portfolio out sel workflow app dates,
    resolve_positions args = Ok (positions, tickers, base_portfolio) ∧
    select_analysts choices = (out, Ok sel) ∧
    create_workflow sel = Ok workflow ∧ compile workflow = Ok app ∧
    validate_date (args_start_date args) "Start date must be in YYYY-MM-DD format" = Ok tt ∧
    validate_date (args_end_date args) "End date must be in YYYY-MM-DD format" = Ok tt ∧
    resolve_dates args now = Ok dates ∧
    t ∈ tickers.
Proof.
  unfold main. rewrite lift_bind.
  destruct (resolve_positions args) as [[[positions tickers] base]|e];
    [|by intros ?%elem_of_nil].
  destruct (select_analysts_total choices) as (out & sel & Hsel & Hout).
  rewrite Hsel, io_bind_Ok. cbn [fst]. rewrite lift_bind.
  assert (∀ A (r : io A), r.1 = [] → Analyzing t ∈ (out ++ r.1)%list → False) as Hstop.
  { intros A r -> Hin. rewrite app_nil_r in Hin.
    rewrite Forall_forall in Hout. apply (Hout _ Hin). by exists t. }
  destruct (create_workflow sel) as [workflow|e] eqn:Hworkflow;
    [|intros Hin; by destruct (Hstop _ ([], Raise e) eq_refl Hin)].
  rewrite lift_bind.
  destruct (compile workflow) as [app|e] eqn:Hcompile;
    [|intros Hin; by destruct (Hstop _ ([], Raise e) eq_refl Hin)].
  rewrite lift_bind.
  destruct (validate_date (args_start_date args) _) as [[]|e];
    [|intros Hin; by destruct (Hstop _ ([], Raise e) eq_refl Hin)].
  rewrite lift_bind.
  destruct (validate_date (args_end_date args) _) as [[]|e];
    [|intros Hin; by destruct (Hstop _ ([], Raise e) eq_refl Hin)].
  rewrite lift_bind.
  destruct (resolve_dates args now) as [dates|e];
    [|intros Hin; by destruct (Hstop _ ([], Raise e) eq_refl Hin)].
  intros [Hin|Hin]%elem_of_app.
  - rewrite Forall_forall in Hout. destruct (Hout _ Hin). by exists t.
  - apply process_tickers_headings in Hin.
    exists positions, tickers, base, out, sel, workflow, app, dates.
    repeat split; (reflexivity || assumption).
Qed.

(** X17: in the [--tickers] mode, once the workflow is built and compiled
    and the dates are set, the script ends normally: it prints the line of
    the analyst selection, then the output of every ticker in list order,
    whatever the runs do. *)
Theorem main_tickers_mode (args : Args) (choices : option (list string)) (now : datetime)
    (tickers : list string) (out : list event) (sel : option (list string))
    (dates : string * string) :
  truthy (args_config args) = false → args_tickers args = Some tickers →
  select_analysts choices = (out, Ok sel) →
  is_Ok (create_workflow sel ≫= compile) →
  validate_date (args_start_date args) "Start date must be in YYYY-MM-DD format" = Ok tt →
  validate_date (args_end_date args) "End date must be in YYYY-MM-DD format" = Ok tt →
  resolve_dates args now = Ok dates →
  ∃ app, (create_workflow sel ≫= compile) = Ok app ∧
    main args choices now =
      ((out ++ concat (map (ticker_events (Some app) (default_positions tickers).2
                              (default_positions tickers).1.1 dates.1 dates.2
                              (args_show_reasoning args) sel) tickers))%list,
       Ok tt).
Proof.
  intros Hconfig Htickers Hsel [app Happ] Hstart Hend Hdates.
  exists app. split; [exact Happ|].
  unfold main, resolve_positions. rewrite Hconfig, Htickers, lift_bind.
  cbn [default_positions fst snd]. rewrite Hsel, io_bind_Ok. f_equal.
  - f_equal. rewrite lift_bind.
    destruct (create_workflow sel) as [workflow|e]; [|discriminate Happ].
    rewrite bind_Ok in Happ. rewrite lift_bind, Happ, lift_bind, Hstart, lift_bind, Hend,
      lift_bind, Hdates.
    rewrite process_tickers_all_ok; [reflexivity|].
    apply Forall_forall. intros t Hin. eexists. unfold ticker_portfolio.
    pose proof (default_positions_lookup tickers t Hin) as Hl.
    cbn [default_positions fst snd] in Hl. by rewrite Hl.
  - rewrite lift_bind.
    destruct (create_workflow sel) as [workflow|e]; [|discriminate Happ].
    rewrite bind_Ok in Happ. rewrite lift_bind, Happ, lift_bind, Hstart, lift_bind, Hend,
      lift_bind, Hdates.
    rewrite process_tickers_all_ok; [reflexivity|].
    apply Forall_forall. intros t Hin. eexists. unfold ticker_portfolio.
    pose proof (default_positions_lookup tickers t Hin) as Hl.
    cbn [default_positions fst snd] in Hl. by rewrite Hl.
Qed.

End main_properties.

Lemma main_announces_after_setup_witness :
  ∃ positions tickers base_portfolio out sel workflow app dates,
    resolve_positions (ext := sample_collaborators)
      {| args_tickers := Some ["AAPL"; "MSFT"]; args_config := None;
         args_start_date := None; args_end_date := Some "2024-05-15";
         args_show_reasoning := false |} = Ok (positions, tickers, base_portfolio) ∧
    select_analysts None = (out, Ok sel) ∧
    create_workflow sel = Ok workflow ∧
    compile (Collaborators := sample_collaborators) workflow = Ok app ∧
    validate_date (ext := sample_collaborators) None
      "Start date must be in YYYY-MM-DD format" = Ok tt ∧
    validate_date (ext := sample_collaborators) (Some "2024-05-15")
      "End date must be in YYYY-MM-DD format" = Ok tt ∧
    resolve_dates (ext := sample_collaborators)
      {| args_tickers := Some ["AAPL"; "MSFT"]; args_config := None;
         args_start_date := None; args_end_date := Some "2024-05-15";
         args_show_reasoning := false |}
      {| year := 2026; month := 11; day := 4 |} = Ok dates ∧
    "MSFT" ∈ tickers.
Proof.
  apply (main_announces_after_setup (ext := sample_collaborators)
           {| args_tickers := Some ["AAPL"; "MSFT"]; args_config := None;
              args_start_date := None; args_end_date := Some "2024-05-15";
              args_show_reasoning := false |}
           None {| year := 2026; month := 11; day := 4 |} "MSFT").
  vm_compute. do 3 apply list_elem_of_further. apply list_elem_of_here.
Defined.

Lemma sample_compile_default :
  is_Ok (create_workflow None ≫= compile (Collaborators := sample_collaborators)).
Proof.
  destruct (create_workflow_spec all_analysts all_analysts_NoDup all_analysts_known)
    as (g & Hg & _).
  exists {| builder := g |}. change (create_workflow None) with (create_workflow (Some all_analysts)).
  by rewrite Hg.
Qed.

Lemma main_tickers_mode_witness :
  ∃ app, (create_workflow None ≫= compile (Collaborators := sample_collaborators)) = Ok app ∧
    main (ext := sample_collaborators)
      {| args_tickers := Some ["AAPL"; "MSFT"]; args_config := None;
         args_start_date := None; args_end_date := Some "2024-05-15";
         args_show_reasoning := false |}
      None {| year := 2026; month := 11; day := 4 |} =
    (([UsingAllAnalysts] ++
      concat (map (ticker_events (ext := sample_collaborators) (Some app)
                     (default_positions ["AAPL"; "MSFT"]).2
                     (default_positions ["AAPL"; "MSFT"]).1.1
                     "2024-02-15" "2024-05-15" false None) ["AAPL"; "MSFT"]))%list,
     Ok tt).
Proof.
  apply (main_tickers_mode (ext := sample_collaborators)
           {| args_tickers := Some ["AAPL"; "MSFT"]; args_config := None;
              args_start_date := None; args_end_date := Some "2024-05-15";
              args_show_reasoning := false |}
           None {| year := 2026; month := 11; day := 4 |} ["AAPL"; "MSFT"]
           [UsingAllAnalysts] None ("2024-02-15", "2024-05-15")).
  - reflexivity.
  - reflexivity.
  - reflexivity.
  - apply sample_compile_default.
  - reflexivity.
  - vm_compute. reflexivity.
  - vm_compute. reflexivity.
Defined.

(** ** Further properties of the dates *)

Section date_properties.

Context {ext : Collaborators}.

(** Before April of year 1 the month reached lies in year 0, which
    [datetime] does not have. *)
Lemma datetime_sub_three_months_early (e : datetime) :
  valid_date e → (12 * year e + month e < 16)%Z →
  datetime_sub e (relativedelta_months 3) = Raise (ValueError "date value out of range").
Proof.
  intros (Hy & Hm & Hd) Hlo.
  unfold datetime_sub, datetime_add.
  change (relativedelta_neg (relativedelta_months 3)) with {| rd_years := 0; rd_months := -3 |}.
  cbn [rd_years rd_months]. change (-3 =? 0)%Z with false. cbv iota.
  replace (month e + -3 >? 12)%Z with false by lia.
  replace (month e + -3 <? 1)%Z with true by lia. cbv iota.
  unfold datetime_replace. cbv zeta. rewrite decide_False; [reflexivity|].
  unfold valid_date. cbn [year month day]. lia.
Qed.

(** X18: when no start date is given and the dates are set, the start
    date is the formatted date [D] that the subtraction of three months
    gives from the parsed end date [E]: [D] is a date of the calendar,
    three months before [E] in the count of months, hence earlier than
    [E], on the day of the month of [E] or, when its month is shorter, on
    the last day of its month. *)
Theorem resolve_dates_start_before_end (args : Args) (now E : datetime)
    (start_date end_date : string) :
  truthy (args_start_date args) = false →
  resolve_dates args now = Ok (start_date, end_date) →
  strptime end_date = Ok E → valid_date E →
  ∃ D, datetime_sub E (relativedelta_months 3) = Ok D ∧ start_date = strftime D ∧
    valid_date D ∧
    (12 * year D + month D = 12 * year E + month E - 3)%Z ∧
    (day D ≤ day E)%Z ∧
    (day D = day E ∨ day D = days_in_month (year D) (month D)).
Proof.
  intros Hstart Hres Hparse Hvalid. unfold resolve_dates in Hres.
  rewrite Hstart in Hres. cbn [negb] in Hres.
  destruct (strptime _) as [E'|e] eqn:Hparse' in Hres; [|discriminate Hres].
  rewrite bind_Ok in Hres.
  destruct (datetime_sub E' (relativedelta_months 3)) as [D|e] eqn:Hsub;
    [|discriminate Hres].
  rewrite bind_Ok in Hres. injection Hres as <- <-.
  rewrite Hparse in Hparse'. injection Hparse' as <-.
  destruct (Z_lt_le_dec (12 * year E + month E) 16) as [Hlt|Hge].
  { rewrite (datetime_sub_three_months_early E Hvalid Hlt) in Hsub. discriminate Hsub. }
  destruct (datetime_sub_three_months E Hvalid Hge) as [Hsub' Hv].
  rewrite Hsub' in Hsub. injection Hsub as <-.
  exists (three_calendar_months_before E). split; [exact Hsub'|]. split; [reflexivity|].
  split; [exact Hv|]. split; [|split].
  - unfold three_calendar_months_before. cbn [year month].
    pose proof (Z.div_mod (12 * year E + (month E - 1) - 3) 12). lia.
  - unfold three_calendar_months_before. cbn [day].
    destruct (Z.leb_spec (day E) (days_in_month ((12 * year E + (month E - 1) - 3) / 12)
                                     ((12 * year E + (month E - 1) - 3) mod 12 + 1))); lia.
  - unfold three_calendar_months_before. cbn [year month day].
    destruct (day E <=? _)%Z; [by left|by right].
Qed.

(** X19: when no start date is given and the end date parses to a date
    of the first three months of year 1, setting the dates raises
    [ValueError]: the date three months earlier is out of the range of
    [datetime]. *)
Theorem resolve_dates_before_calendar (args : Args) (now E : datetime) :
  truthy (args_start_date args) = false →
  strptime (if truthy (args_end_date args)
            then from_option id EmptyString (args_end_date args)
            else strftime now) = Ok E →
  valid_date E → (12 * year E + month E < 16)%Z →
  ∃ msg, resolve_dates args now = Raise (ValueError msg).
Proof.
  intros Hstart Hparse Hvalid Hlo. unfold resolve_dates.
  rewrite Hstart. cbn [negb]. rewrite Hparse, bind_Ok.
  rewrite (datetime_sub_three_months_early E Hvalid Hlo). by eexists.
Qed.

End date_properties.

Lemma resolve_dates_start_before_end_witness :
  ∃ D, datetime_sub {| year := 2024; month := 1; day := 31 |} (relativedelta_months 3) = Ok D ∧
    "2023-10-31" = strftime (Collaborators := sample_collaborators) D ∧
    valid_date D ∧
    (12 * year D + month D = 12 * 2024 + 1 - 3)%Z ∧
    (day D ≤ 31)%Z ∧
    (day D = 31%Z ∨ day D = days_in_month (year D) (month D)).
Proof.
  apply (resolve_dates_start_before_end (ext := sample_collaborators)
           {| args_tickers := Some ["AAPL"]; args_config := None; args_start_date := None;
              args_end_date := Some "2024-01-31"; args_show_reasoning := false |}
           {| year := 2026; month := 11; day := 4 |}
           {| year := 2024; month := 1; day := 31 |} "2023-10-31" "2024-01-31").
  - reflexivity.
  - vm_compute. reflexivity.
  - vm_compute. reflexivity.
  - by_compute.
Defined.

Lemma resolve_dates_before_calendar_witness :
  ∃ msg, resolve_dates (ext := sample_collaborators)
    {| args_tickers := Some ["AAPL"]; args_config := None; args_start_date := None;
       args_end_date := Some "0001-02-15"; args_show_reasoning := false |}
    {| year := 2026; month := 11; day := 4 |} = Raise (ValueError msg).
Proof.
  apply (resolve_dates_before_calendar (ext := sample_collaborators)
           {| args_tickers := Some ["AAPL"]; args_config := None; args_start_date := None;
              args_end_date := Some "0001-02-15"; args_show_reasoning := false |}
           {| year := 2026; month := 11; day := 4 |}
           {| year := 1; month := 2; day := 15 |}).
  - reflexivity.
  - vm_compute. reflexivity.
  - by_compute.
  - cbn. lia.
Defined.
